(** * SoftLayer.managers.load_balancer : the load balancer manager

    A shallow embedding of [LoadBalancerManager] and the properties of its
    request shaping.  The manager is glue over a remote API: every method
    builds parameters, calls named remote operations and reshapes the
    answers.  The embedding therefore has three layers:

    - [Py]    : the Python values that travel over the API and the builtin
                operations the manager applies to them (subscripts, item
                stores, [==], attribute lookup, iteration);
    - [Remote]: remote calls as an error monad over the log of issued
                calls, answered by an arbitrary oracle;
    - [LoadBalancerManager]: the methods, one definition per method. *)

From Stdlib Require Import List String Ascii ZArith Bool Lia.
Import ListNotations.
Open Scope string_scope.
Open Scope list_scope.
Set Warnings "-register-all".

(* ------------------------------------------------------------------ *)
(** ** Python values and builtins                                      *)
(* ------------------------------------------------------------------ *)
Module Py.

(** What the transport deserialises: [None], booleans, integers, strings,
    lists and string-keyed dicts.  A dict keeps its insertion order. *)
Inductive value : Type :=
| VNone
| VBool (b : bool)
| VInt (z : Z)
| VStr (s : string)
| VList (l : list value)
| VDict (d : list (string * value)).

(** The exceptions that can leave a method: the builtin ones raised by the
    manager's own statements, and the fault the client raises for a failed
    remote call. *)
Inductive exn : Type :=
| KeyError
| IndexError
| TypeError
| AttributeError
| ValueError
| SoftLayerAPIError (faultCode faultString : string).

Inductive result (A : Type) : Type :=
| Ok (a : A)
| Raise (e : exn).
Arguments Ok {A} a.
Arguments Raise {A} e.

Definition rbind {A B} (r : result A) (k : A -> result B) : result B :=
  match r with
  | Ok a => k a
  | Raise e => Raise e
  end.

Notation "x <~ r ; k" := (rbind r (fun x => k))
  (at level 61, r at next level, right associativity).

Fixpoint mapM {A B} (f : A -> result B) (l : list A) : result (list B) :=
  match l with
  | [] => Ok []
  | x :: l' => y <~ f x; ys <~ mapM f l'; Ok (y :: ys)
  end.

(** *** Dicts *)

Fixpoint dict_get (k : string) (d : list (string * value)) : option value :=
  match d with
  | [] => None
  | (k', v) :: d' => if String.eqb k k' then Some v else dict_get k d'
  end.

(** [d[k] = v]: an existing key keeps its place, a new key goes last. *)
Fixpoint dict_set (k : string) (v : value) (d : list (string * value))
  : list (string * value) :=
  match d with
  | [] => [(k, v)]
  | (k', v') :: d' =>
      if String.eqb k k' then (k', v) :: d' else (k', v') :: dict_set k v d'
  end.

(** *** Lists *)

Fixpoint list_set {A} (i : nat) (x : A) (l : list A) : list A :=
  match l, i with
  | [], _ => []
  | _ :: l', O => x :: l'
  | y :: l', S i' => y :: list_set i' x l'
  end.

(** The one-character strings a [str] yields when indexed or iterated. *)
Definition chars (s : string) : list value :=
  map (fun c => VStr (String c EmptyString)) (list_ascii_of_string s).

(** *** [a == b] *)

Definition bool_Z (b : bool) : Z := if b then 1%Z else 0%Z.

Fixpoint py_eq (a b : value) {struct a} : bool :=
  match a, b with
  | VNone, VNone => true
  | VBool x, VBool y => Bool.eqb x y
  | VBool x, VInt y => Z.eqb (bool_Z x) y
  | VInt x, VBool y => Z.eqb x (bool_Z y)
  | VInt x, VInt y => Z.eqb x y
  | VStr x, VStr y => String.eqb x y
  | VList xs, VList ys =>
      (fix go (xs ys : list value) {struct xs} : bool :=
         match xs, ys with
         | [], [] => true
         | x :: xs', y :: ys' => py_eq x y && go xs' ys'
         | _, _ => false
         end) xs ys
  | VDict d1, VDict d2 =>
      Nat.eqb (List.length d1) (List.length d2) &&
      (fix go (d : list (string * value)) {struct d} : bool :=
         match d with
         | [] => true
         | (k, v) :: d' =>
             match dict_get k d2 with
             | Some v' => py_eq v v'
             | None => false
             end && go d'
         end) d1
  | _, _ => false
  end.

Definition py_ne (a b : value) : bool := negb (py_eq a b).

(** Truth value of an object in an [if]. *)
Definition truthy (v : value) : bool :=
  match v with
  | VNone => false
  | VBool b => b
  | VInt z => negb (Z.eqb z 0)
  | VStr s => negb (String.eqb s "")
  | VList l => negb (Nat.eqb (List.length l) 0)
  | VDict d => negb (Nat.eqb (List.length d) 0)
  end.

(** *** Subscripts: [v[k]] with a string key, [v[i]] with an index *)

Definition getitem_key (v : value) (k : string) : result value :=
  match v with
  | VDict d =>
      match dict_get k d with
      | Some x => Ok x
      | None => Raise KeyError
      end
  | _ => Raise TypeError
  end.

Definition getitem_idx (v : value) (i : nat) : result value :=
  match v with
  | VList l =>
      match nth_error l i with
      | Some x => Ok x
      | None => Raise IndexError
      end
  | VStr s =>
      match nth_error (chars s) i with
      | Some x => Ok x
      | None => Raise IndexError
      end
  | VDict _ => Raise KeyError
  | _ => Raise TypeError
  end.

(** [v[k] = x] *)
Definition setitem_key (v : value) (k : string) (x : value) : result value :=
  match v with
  | VDict d => Ok (VDict (dict_set k x d))
  | _ => Raise TypeError
  end.

(** *** Attribute lookup

    The public attribute names of the builtin types.  Names are case
    sensitive. *)
Definition str_methods : list string :=
  ["capitalize"; "center"; "count"; "decode"; "encode"; "endswith";
   "expandtabs"; "find"; "format"; "index"; "isalnum"; "isalpha";
   "isdigit"; "islower"; "isspace"; "istitle"; "isupper"; "join"; "ljust";
   "lower"; "lstrip"; "partition"; "replace"; "rfind"; "rindex"; "rjust";
   "rpartition"; "rsplit"; "rstrip"; "split"; "splitlines"; "startswith";
   "strip"; "swapcase"; "title"; "translate"; "upper"; "zfill"].

Definition list_methods : list string :=
  ["append"; "count"; "extend"; "index"; "insert"; "pop"; "remove";
   "reverse"; "sort"].

Definition dict_methods : list string :=
  ["clear"; "copy"; "fromkeys"; "get"; "has_key"; "items"; "iteritems";
   "iterkeys"; "itervalues"; "keys"; "pop"; "popitem"; "setdefault";
   "update"; "values"; "viewitems"; "viewkeys"; "viewvalues"].

Definition int_methods : list string :=
  ["bit_length"; "conjugate"; "denominator"; "imag"; "numerator"; "real"].

Definition methods_of (v : value) : list string :=
  match v with
  | VNone => []
  | VBool _ => int_methods
  | VInt _ => int_methods
  | VStr _ => str_methods
  | VList _ => list_methods
  | VDict _ => dict_methods
  end.

Definition hasattr (v : value) (name : string) : bool :=
  existsb (String.eqb name) (methods_of v).

Fixpoint is_prefix (p s : string) : bool :=
  match p, s with
  | EmptyString, _ => true
  | String a p', String b s' => Ascii.eqb a b && is_prefix p' s'
  | String _ _, EmptyString => false
  end.

(** [v.name(arg)] for the non-mutating methods: the attribute is looked up
    first, so an unknown name raises [AttributeError] whatever the
    arguments are.  The manager calls no other such method than the one
    spelled out here. *)
Definition call_method (v : value) (name : string) (arg : value)
  : result value :=
  if hasattr v name then
    match v, arg with
    | VStr s, VStr p =>
        if String.eqb name "startswith" then Ok (VBool (is_prefix p s))
        else Raise TypeError
    | _, _ => Raise TypeError
    end
  else Raise AttributeError.

(** [v.append(x)] *)
Definition py_append (x : value) (v : value) : result value :=
  match v with
  | VList l => Ok (VList (l ++ [x]))
  | _ => Raise AttributeError
  end.

(** [l.remove(x)] on a list: drops the first item equal to [x]. *)
Fixpoint list_remove (x : value) (l : list value) : result (list value) :=
  match l with
  | [] => Raise ValueError
  | y :: l' =>
      if py_eq y x then Ok l'
      else (r <~ list_remove x l'; Ok (y :: r))
  end.

(** *** References into a fetched object

    An answer of the API is a freshly deserialised tree: no object occurs
    at two places in it.  A reference to a nested object is therefore the
    path that leads to it, and a store through the reference is the update
    of the tree at that path. *)
Inductive step : Type :=
| Key (k : string)
| Idx (i : nat).

Definition path := list step.

Definition getitem (v : value) (s : step) : result value :=
  match s with
  | Key k => getitem_key v k
  | Idx i => getitem_idx v i
  end.

(** Puts the updated child back in its parent.  Strings are immutable, so
    the characters of a [str] parent are never updated. *)
Definition putback (v : value) (s : step) (x : value) : value :=
  match v, s with
  | VDict d, Key k => VDict (dict_set k x d)
  | VList l, Idx i => VList (list_set i x l)
  | _, _ => v
  end.

Fixpoint get_path (p : path) (v : value) : result value :=
  match p with
  | [] => Ok v
  | s :: p' => c <~ getitem v s; get_path p' c
  end.

(** Evaluates the subscript chain [p] on [v], then runs the in-place
    update [f] on the object it reaches. *)
Fixpoint modify_path (p : path) (f : value -> result value) (v : value)
  : result value :=
  match p with
  | [] => f v
  | s :: p' =>
      c <~ getitem v s;
      c' <~ modify_path p' f c;
      Ok (putback v s c')
  end.

(** [for x in v: body], where the body may update [x] in place but leaves
    the length of [v] alone.  A dict yields its keys and a str its
    characters, which are immutable. *)
Definition for_each (body : value -> result value) (v : value)
  : result value :=
  match v with
  | VList l => l' <~ mapM body l; Ok (VList l')
  | VDict d => _ <~ mapM body (map (fun kv => VStr (fst kv)) d); Ok v
  | VStr s => _ <~ mapM body (chars s); Ok v
  | _ => Raise TypeError
  end.

(** The items a [for] loop goes through when the object is not updated. *)
Definition py_iter (v : value) : result (list value) :=
  match v with
  | VList l => Ok l
  | VDict d => Ok (map (fun kv => VStr (fst kv)) d)
  | VStr s => Ok (chars s)
  | _ => Raise TypeError
  end.

(** Two paths that part at some step: neither leads into the other. *)
Fixpoint diverge (p q : path) : bool :=
  match p, q with
  | Key a :: p', Key b :: q' => if String.eqb a b then diverge p' q' else true
  | Idx i :: p', Idx j :: q' => if Nat.eqb i j then diverge p' q' else true
  | Key _ :: _, Idx _ :: _ => true
  | Idx _ :: _, Key _ :: _ => true
  | _, _ => false
  end.

End Py.
Export Py.

(* ------------------------------------------------------------------ *)
(** ** Remote calls                                                    *)
(* ------------------------------------------------------------------ *)
Module Remote.

(** One remote call: the service and method names, the positional
    arguments and the keyword arguments. *)
Record call : Type := Call {
  service : string;
  method : string;
  args : list value;
  kwargs : list (string * value)
}.

(** The remote side: what it answers to a call, given the calls it has
    served before.  A failed call raises. *)
Definition oracle : Type := list call -> call -> result value.

(** A method runs from the log of the calls issued so far to its outcome
    and the log extended with its own calls, oldest first. *)
Definition M (A : Type) : Type := list call -> result A * list call.

Definition ret {A} (a : A) : M A := fun log => (Ok a, log).

Definition bind {A B} (m : M A) (k : A -> M B) : M B :=
  fun log =>
    match m log with
    | (Ok a, log') => k a log'
    | (Raise e, log') => (Raise e, log')
    end.

(** A local computation: it raises or returns, and calls nothing. *)
Definition lift {A} (r : result A) : M A := fun log => (r, log).

Definition invoke (remote : oracle) (c : call) : M value :=
  fun log => (remote log c, log ++ [c]).

End Remote.
Export Remote.

Notation "x <- m ;; k" := (Remote.bind m (fun x => k))
  (at level 61, m at next level, right associativity).

(* ------------------------------------------------------------------ *)
(** ** SoftLayer.utils                                                 *)
(* ------------------------------------------------------------------ *)

(** Modelled from the spec: [NestedDict] of SoftLayer.utils, whose source
    is not part of this module.  Storing [leaf] under the key path [keys]
    of an empty [NestedDict] and calling [to_dict] gives the nested dict
    "key path -> operator". *)
Fixpoint nested (keys : list string) (leaf : value) : value :=
  match keys with
  | [] => leaf
  | k :: keys' => VDict [(k, nested keys' leaf)]
  end.

(* ------------------------------------------------------------------ *)
(** ** LoadBalancerManager                                             *)
(* ------------------------------------------------------------------ *)
Module LoadBalancerManager.

(** The service handles set up by [__init__], and the ones the methods
    look up on the client. *)
Definition prod_pkg : string := "Product_Package".
Definition lb_svc : string :=
  "Network_Application_Delivery_Controller_LoadBalancer_VirtualIpAddress".
Definition lb_service_group_svc : string :=
  "Network_Application_Delivery_Controller_LoadBalancer_Service_Group".
Definition location_svc : string := "Location".
Definition billing_item_svc : string := "Billing_Item".
Definition product_order_svc : string := "Product_Order".

Section Manager.

(** The client the manager was built with. *)
Variable remote : oracle.

(** [query_filter] of SoftLayer.utils turns a value or pattern into the
    operator record of a filter, or refuses it and raises; its source is
    not part of this module. *)
Variable query_filter : value -> result value.

(** *** get_lb_pkgs *)

(** [package['description'].startsWith('Global')] *)
Definition is_global (package : value) : result bool :=
  d <~ getitem_key package "description";
  r <~ call_method d "startsWith" (VStr "Global");
  Ok (truthy r).

(** [for package in packages: if ...: packages.remove(package)] on a list.
    The list iterator holds the index [i] of the next item and reads the
    list as it is at that moment; [n] bounds the iterations left. *)
Fixpoint remove_globals (n i : nat) (packages : list value)
  : result (list value) :=
  match n with
  | O => Ok packages
  | S n' =>
      match nth_error packages i with
      | None => Ok packages
      | Some package =>
          g <~ is_global package;
          if g : bool then
            packages' <~ list_remove package packages;
            remove_globals n' (S i) packages'
          else remove_globals n' (S i) packages
      end
  end.

(** The same loop over whatever object the call returned: only a list has
    [remove]. *)
Definition filter_packages (packages : value) : result value :=
  match packages with
  | VList l => l' <~ remove_globals (List.length l) 0 l; Ok (VList l')
  | _ =>
      items <~ py_iter packages;
      _ <~ mapM (fun package =>
                   g <~ is_global package;
                   if g : bool then Raise AttributeError else Ok package)
                items;
      Ok packages
  end.

Definition get_lb_pkgs : M value :=
  let lb_filter := VStr "*Load Balancer*" in
  operation <- lift (query_filter lb_filter);;
  let _filter := nested ["items"; "description"] operation in
  let kwargs := [("id", VInt 0); ("filter", _filter)] in
  packages <- invoke remote (Call prod_pkg "getItems" [] kwargs);;
  lift (filter_packages packages).

(** *** get_location *)

Fixpoint find_location (datacenter : value) (dcenters : list value)
  : result value :=
  match dcenters with
  | [] => Ok (VStr "FIRST_AVAILABLE")
  | dcenter :: rest =>
      name <~ getitem_key dcenter "name";
      if py_eq name datacenter then getitem_key dcenter "id"
      else find_location datacenter rest
  end.

Definition get_location (datacenter : value) : M value :=
  dcenters <- invoke remote (Call location_svc "getDataCenters" [] []);;
  lift (items <~ py_iter dcenters; find_location datacenter items).

(** *** cancel_lb *)

Definition cancel_lb (loadbal_id : value) : M value :=
  lb_billing <- invoke remote
    (Call lb_svc "getBillingItem" [] [("id", loadbal_id)]);;
  billing_id <- lift (getitem_key lb_billing "id");;
  invoke remote (Call billing_item_svc "cancelService" []
                   [("id", billing_id)]).

(** *** add_local_lb *)

Definition product_order (price_item_id location : value) : value :=
  VDict [("complexType",
          VStr "SoftLayer_Container_Product_Order_Network_LoadBalancer");
         ("quantity", VInt 1);
         ("packageId", VInt 0);
         ("location", location);
         ("prices", VList [VDict [("id", price_item_id)]])].

Definition add_local_lb (price_item_id datacenter : value) : M value :=
  location <- get_location datacenter;;
  invoke remote (Call product_order_svc "placeOrder"
                   [product_order price_item_id location] []).

(** *** get_local_lb *)

Definition default_lb_mask : value :=
  VStr ("mask[loadBalancerHardware[datacenter], "
        ++ "ipAddress, virtualServers[serviceGroups"
        ++ "[routingMethod,routingType,services"
        ++ "[healthChecks[type], groupReferences,"
        ++ " ipAddress]]]]")%string.

(** The keyword dict of the caller gets the default mask unless it has
    one.  Passing [id] next to a keyword dict that has an [id] of its own
    is refused at the call, before anything is sent. *)
Definition get_local_lb (loadbal_id : value) (kwargs : list (string * value))
  : M value :=
  let kwargs :=
    match dict_get "mask" kwargs with
    | None => dict_set "mask" default_lb_mask kwargs
    | Some _ => kwargs
    end in
  match dict_get "id" kwargs with
  | Some _ => lift (Raise TypeError)
  | None =>
      invoke remote (Call lb_svc "getObject" [] (("id", loadbal_id) :: kwargs))
  end.

(** *** edit_service *)

(** The body of the loop over the services: the stores into the service
    whose id is [service_id]. *)
Definition edit_service_node
    (service_id ip_address_id port enabled hc_type weight : value)
    (service : value) : result value :=
  id <~ getitem_key service "id";
  if py_eq id service_id then
    s1 <~ (if py_ne enabled (VInt (-1))
           then setitem_key service "enabled" enabled else Ok service);
    s2 <~ (if py_ne port (VInt (-1))
           then setitem_key s1 "port" port else Ok s1);
    s3 <~ (if py_ne weight (VInt (-1))
           then modify_path [Key "groupReferences"; Idx 0]
                  (fun r => setitem_key r "weight" weight) s2
           else Ok s2);
    s4 <~ (if py_ne hc_type (VInt (-1))
           then modify_path [Key "healthChecks"; Idx 0]
                  (fun h => setitem_key h "healthCheckTypeId" hc_type) s3
           else Ok s3);
    if py_ne ip_address_id (VInt 0)
    then setitem_key s4 "ipAddressId" ip_address_id else Ok s4
  else Ok service.

(** [virtual_servers[0]['serviceGroups'][0]['services']] *)
Definition first_services : path :=
  [Idx 0; Key "serviceGroups"; Idx 0; Key "services"].

Definition edit_service
    (loadbal_id service_id ip_address_id port enabled hc_type weight : value)
  : M value :=
  operation <- lift (query_filter service_id);;
  let _filter :=
    nested ["virtualServers"; "serviceGroups"; "services"; "id"]
           operation in
  let kwargs :=
    [("filter", _filter);
     ("mask",
      VStr "mask[serviceGroups[services[groupReferences,healthChecks]]]")] in
  virtual_servers <- invoke remote
    (Call lb_svc "getVirtualServers" [] (("id", loadbal_id) :: kwargs));;
  virtual_servers' <- lift
    (modify_path first_services
       (for_each (edit_service_node service_id ip_address_id port enabled
                                    hc_type weight))
       virtual_servers);;
  let template := VDict [("virtualServers", virtual_servers')] in
  invoke remote (Call lb_svc "editObject" [template] [("id", loadbal_id)]).

(** *** add_service *)

Definition lb_mask : value :=
  VStr "mask[virtualServers[serviceGroups[services[groupReferences]]]]".

Definition service_template (ip_address_id port enabled hc_type weight : value)
  : value :=
  VDict [("enabled", enabled);
         ("port", port);
         ("ipAddressId", ip_address_id);
         ("healthChecks", VList [VDict [("healthCheckTypeId", hc_type)]]);
         ("groupReferences", VList [VDict [("weight", weight)]])].

(** [virtual_server['serviceGroups'][0]['services']] *)
Definition group0_services : path :=
  [Key "serviceGroups"; Idx 0; Key "services"].

Definition add_service_node
    (service_group_id ip_address_id port enabled hc_type weight : value)
    (virtual_server : value) : result value :=
  id <~ getitem_key virtual_server "id";
  if py_eq id service_group_id then
    modify_path group0_services
      (py_append (service_template ip_address_id port enabled hc_type weight))
      virtual_server
  else Ok virtual_server.

Definition add_service
    (loadbal_id service_group_id ip_address_id port enabled hc_type
       weight : value) : M value :=
  let kwargs := [("mask", lb_mask)] in
  load_balancer <- invoke remote
    (Call lb_svc "getObject" [] (("id", loadbal_id) :: kwargs));;
  load_balancer' <- lift
    (modify_path [Key "virtualServers"]
       (for_each (add_service_node service_group_id ip_address_id port
                                   enabled hc_type weight))
       load_balancer);;
  invoke remote
    (Call lb_svc "editObject" [load_balancer'] [("id", loadbal_id)]).

(** *** add_service_group *)

Definition group_template (allocation port routing_type routing_method : value)
  : value :=
  VDict [("port", port);
         ("allocation", allocation);
         ("serviceGroups",
          VList [VDict [("routingTypeId", routing_type);
                        ("routingMethodId", routing_method)]])].

Definition add_service_group
    (lb_id allocation port routing_type routing_method : value) : M value :=
  let kwargs := [("mask", lb_mask)] in
  load_balancer <- invoke remote
    (Call lb_svc "getObject" [] (("id", lb_id) :: kwargs));;
  load_balancer' <- lift
    (modify_path [Key "virtualServers"]
       (py_append (group_template allocation port routing_type
                                  routing_method))
       load_balancer);;
  invoke remote (Call lb_svc "editObject" [load_balancer'] [("id", lb_id)]).

(** *** edit_service_group *)

(** [virtual_server['serviceGroups'][0]] *)
Definition group0 : path := [Key "serviceGroups"; Idx 0].

Definition edit_service_group_node
    (group_id allocation port routing_type routing_method : value)
    (virtual_server : value) : result value :=
  id <~ getitem_key virtual_server "id";
  if py_eq id group_id then
    _ <~ get_path group0 virtual_server;
    v1 <~ (if py_ne allocation (VInt (-1))
           then setitem_key virtual_server "allocation" allocation
           else Ok virtual_server);
    v2 <~ (if py_ne port (VInt 0)
           then setitem_key v1 "port" port else Ok v1);
    v3 <~ (if py_ne routing_type (VInt 0)
           then modify_path group0
                  (fun g => setitem_key g "routingTypeId" routing_type) v2
           else Ok v2);
    if py_ne routing_method (VInt 0)
    then modify_path group0
           (fun g => setitem_key g "routingMethodId" routing_method) v3
    else Ok v3
  else Ok virtual_server.

Definition edit_service_group
    (loadbal_id group_id allocation port routing_type routing_method : value)
  : M value :=
  let kwargs := [("mask", lb_mask)] in
  load_balancer <- invoke remote
    (Call lb_svc "getObject" [] (("id", loadbal_id) :: kwargs));;
  load_balancer' <- lift
    (modify_path [Key "virtualServers"]
       (for_each (edit_service_group_node group_id allocation port
                                          routing_type routing_method))
       load_balancer);;
  invoke remote
    (Call lb_svc "editObject" [load_balancer'] [("id", loadbal_id)]).

(** *** reset_service_group *)

(** [virtual_servers[0]['serviceGroups'][0]['id']] *)
Definition first_group_id : path :=
  [Idx 0; Key "serviceGroups"; Idx 0; Key "id"].

Definition reset_service_group (loadbal_id group_id : value) : M value :=
  operation <- lift (query_filter group_id);;
  let _filter := nested ["virtualServers"; "id"] operation in
  let kwargs := [("filter", _filter); ("mask", VStr "mask[serviceGroups]")] in
  virtual_servers <- invoke remote
    (Call lb_svc "getVirtualServers" [] (("id", loadbal_id) :: kwargs));;
  actual_id <- lift (get_path first_group_id virtual_servers);;
  invoke remote
    (Call lb_service_group_svc "kickAllConnections" [] [("id", actual_id)]).

End Manager.
End LoadBalancerManager.

Import LoadBalancerManager.

(* ------------------------------------------------------------------ *)
(** ** The calls a method issues, and sample data                      *)
(* ------------------------------------------------------------------ *)
Module Calls.

Definition getItems (operation : value) : call :=
  Call prod_pkg "getItems" []
    [("id", VInt 0);
     ("filter", VDict [("items",
        VDict [("description", operation)])])].

Definition getDataCenters : call := Call location_svc "getDataCenters" [] [].

Definition getBillingItem (loadbal_id : value) : call :=
  Call lb_svc "getBillingItem" [] [("id", loadbal_id)].

Definition cancelService (billing_id : value) : call :=
  Call billing_item_svc "cancelService" [] [("id", billing_id)].

Definition getVirtualServers_by_service (operation loadbal_id : value)
  : call :=
  Call lb_svc "getVirtualServers" []
    [("id", loadbal_id);
     ("filter", VDict [("virtualServers", VDict [("serviceGroups",
        VDict [("services", VDict [("id", operation)])])])]);
     ("mask",
      VStr "mask[serviceGroups[services[groupReferences,healthChecks]]]")].

Definition getVirtualServers_by_group (operation loadbal_id : value)
  : call :=
  Call lb_svc "getVirtualServers" []
    [("id", loadbal_id);
     ("filter", VDict [("virtualServers",
        VDict [("id", operation)])]);
     ("mask", VStr "mask[serviceGroups]")].

Definition getObject (loadbal_id : value) : call :=
  Call lb_svc "getObject" [] [("id", loadbal_id); ("mask", lb_mask)].

Definition editObject (template loadbal_id : value) : call :=
  Call lb_svc "editObject" [template] [("id", loadbal_id)].

Definition kickAllConnections (group_id : value) : call :=
  Call lb_service_group_svc "kickAllConnections" [] [("id", group_id)].

Definition placeOrder (product_order : value) : call :=
  Call product_order_svc "placeOrder" [product_order] [].

Definition getObject_with (loadbal_id : value) (kwargs : list (string * value))
  : call :=
  Call lb_svc "getObject" [] (("id", loadbal_id) :: kwargs).

End Calls.

Module Sample.

(** The exact-value filter operator. *)
Definition op (v : value) : value := VDict [("operation", v)].

(** A stand-in for [query_filter]: the operator of a number or of a
    string; [None], a list and a dict are refused. *)
Definition qf (v : value) : result value :=
  match v with
  | VBool _ | VInt _ | VStr _ => Ok (op v)
  | _ => Raise TypeError
  end.

(** A remote side that answers by method name and fails on the rest. *)
Fixpoint answer (table : list (string * result value)) (m : string)
  : result value :=
  match table with
  | [] => Raise (SoftLayerAPIError "SoftLayer_Exception" "no such method")
  | (m', r) :: table' => if String.eqb m m' then r else answer table' m
  end.

Definition by_method (table : list (string * result value)) : oracle :=
  fun _ c => answer table (method c).

Definition catalog : value :=
  VList [VDict [("id", VInt 1); ("description", VStr "Global Load Balancer")];
         VDict [("id", VInt 2);
                ("description", VStr "Load Balancer 250 VIP Connections")]].

Definition datacenters : value :=
  VList [VDict [("id", VInt 3); ("name", VStr "dal05")];
         VDict [("id", VInt 7); ("name", VStr "ams01")]].

Definition service (id port : Z) : value :=
  VDict [("id", VInt id); ("enabled", VInt 1); ("port", VInt port);
         ("ipAddressId", VInt 500);
         ("groupReferences", VList [VDict [("weight", VInt 1)]]);
         ("healthChecks", VList [VDict [("healthCheckTypeId", VInt 21)]])].

Definition group (id : Z) (services : list value) : value :=
  VDict [("id", VInt id); ("routingTypeId", VInt 2);
         ("routingMethodId", VInt 10); ("services", VList services)].

Definition virtual_server (id : Z) (groups : list value) : value :=
  VDict [("id", VInt id); ("port", VInt 80); ("allocation", VInt 100);
         ("serviceGroups", VList groups)].

(** One virtual server, two groups; service 11 sits in both groups. *)
Definition virtual_servers : value :=
  VList [virtual_server 50
           [group 99 [service 11 80; service 12 80];
            group 98 [service 11 8080]]].

Definition load_balancer : value :=
  VDict [("id", VInt 1); ("connectionLimit", VInt 250);
         ("virtualServers",
          VList [virtual_server 50 [group 99 [service 11 80]];
                 virtual_server 51 [group 97 []; group 96 []]])].

Definition fault : result value :=
  Raise (SoftLayerAPIError "SoftLayer_Exception_ObjectNotFound"
                           "Unable to find object").

(** [virtual_servers] after service 11 of the first group got port 8443. *)
Definition virtual_servers_8443 : value :=
  VList [virtual_server 50
           [group 99 [VDict [("id", VInt 11); ("enabled", VInt 1);
                             ("port", VInt 8443); ("ipAddressId", VInt 500);
                             ("groupReferences",
                              VList [VDict [("weight", VInt 1)]]);
                             ("healthChecks",
                              VList [VDict [("healthCheckTypeId",
                                             VInt 21)]])];
                      service 12 80];
            group 98 [service 11 8080]]].

(** [load_balancer] after a service was added to virtual server 51. *)
Definition load_balancer_added : value :=
  VDict [("id", VInt 1); ("connectionLimit", VInt 250);
         ("virtualServers",
          VList [virtual_server 50 [group 99 [service 11 80]];
                 virtual_server 51
                   [group 97 [service_template (VInt 600) (VInt 80) (VInt 1)
                                               (VInt 21) (VInt 1)];
                    group 96 []]])].

(** [load_balancer] after virtual server 51 got routing type 3. *)
Definition load_balancer_rerouted : value :=
  VDict [("id", VInt 1); ("connectionLimit", VInt 250);
         ("virtualServers",
          VList [virtual_server 50 [group 99 [service 11 80]];
                 virtual_server 51
                   [VDict [("id", VInt 97); ("routingTypeId", VInt 3);
                           ("routingMethodId", VInt 10);
                           ("services", VList [])];
                    group 96 []]])].

(** Remote sides. *)
Definition remote_catalog : oracle := by_method [("getItems", Ok catalog)].

Definition remote_locations : oracle :=
  by_method [("getDataCenters", Ok datacenters)].

Definition remote_billing : oracle :=
  by_method [("getBillingItem", Ok (VDict [("id", VInt 9)]));
             ("cancelService", Ok (VBool true))].

Definition remote_billing_down : oracle :=
  by_method [("getBillingItem", fault)].

Definition remote_no_billing : oracle :=
  by_method [("getBillingItem", Ok VNone); ("cancelService", fault)].

Definition remote_servers : oracle :=
  by_method [("getVirtualServers", Ok virtual_servers);
             ("editObject", Ok (VBool true));
             ("kickAllConnections", Ok (VBool true))].

Definition remote_no_servers : oracle :=
  by_method [("getVirtualServers", Ok (VList []));
             ("editObject", Ok (VBool true))].

Definition remote_lb : oracle :=
  by_method [("getObject", Ok load_balancer);
             ("editObject", Ok (VBool true))].

Definition remote_orders : oracle :=
  by_method [("getDataCenters", Ok datacenters);
             ("placeOrder", Ok (VDict [("orderId", VInt 4711)]))].

Definition remote_locations_down : oracle :=
  by_method [("getDataCenters", fault);
             ("placeOrder", Ok (VDict [("orderId", VInt 4711)]))].

(** A datacenter list whose first record has no name. *)
Definition remote_nameless : oracle :=
  by_method [("getDataCenters",
              Ok (VList [VDict [("id", VInt 3)];
                         VDict [("id", VInt 7); ("name", VStr "ams01")]]));
             ("placeOrder", Ok (VDict [("orderId", VInt 4711)]))].

(** A load balancer whose second virtual server has no service group. *)
Definition load_balancer_bare : value :=
  VDict [("id", VInt 1);
         ("virtualServers",
          VList [virtual_server 50 [group 99 [service 11 80]];
                 virtual_server 51 []])].

Definition remote_lb_bare : oracle :=
  by_method [("getObject", Ok load_balancer_bare);
             ("editObject", Ok (VBool true))].

(** The first group of [virtual_servers] with every field of service 11
    edited. *)
Definition service_edited : value :=
  VDict [("id", VInt 11); ("enabled", VInt 0); ("port", VInt 8443);
         ("ipAddressId", VInt 600);
         ("groupReferences", VList [VDict [("weight", VInt 5)]]);
         ("healthChecks", VList [VDict [("healthCheckTypeId", VInt 3)]])].

Definition virtual_servers_edited : value :=
  VList [virtual_server 50
           [group 99 [service_edited; service 12 80];
            group 98 [service 11 8080]]].

Definition remote_servers_edited : oracle :=
  by_method [("getVirtualServers", Ok virtual_servers_edited);
             ("editObject", Ok (VBool true))].

(** [load_balancer] after virtual server 51 got allocation 40 and nothing
    else. *)
Definition load_balancer_allocated : value :=
  VDict [("id", VInt 1); ("connectionLimit", VInt 250);
         ("virtualServers",
          VList [virtual_server 50 [group 99 [service 11 80]];
                 VDict [("id", VInt 51); ("port", VInt 80);
                        ("allocation", VInt 40);
                        ("serviceGroups",
                         VList [group 97 []; group 96 []])]])].

(** A service that came without group references and health checks. *)
Definition service_plain : value :=
  VDict [("id", VInt 12); ("enabled", VInt 1); ("port", VInt 80);
         ("ipAddressId", VInt 501)].

Definition virtual_servers_plain : value :=
  VList [virtual_server 50 [group 99 [service 11 80; service_plain]]].

Definition remote_servers_plain : oracle :=
  by_method [("getVirtualServers", Ok virtual_servers_plain);
             ("editObject", Ok (VBool true))].

(** [load_balancer] after virtual server 51 got allocation 40, port 443,
    routing type 3 and routing method 20. *)
Definition load_balancer_regrouped : value :=
  VDict [("id", VInt 1); ("connectionLimit", VInt 250);
         ("virtualServers",
          VList [virtual_server 50 [group 99 [service 11 80]];
                 VDict [("id", VInt 51); ("port", VInt 443);
                        ("allocation", VInt 40);
                        ("serviceGroups",
                         VList [VDict [("id", VInt 97);
                                       ("routingTypeId", VInt 3);
                                       ("routingMethodId", VInt 20);
                                       ("services", VList [])];
                                group 96 []])]])].

End Sample.

(* ------------------------------------------------------------------ *)
(** ** Statements that are checked against the methods                 *)
(* ------------------------------------------------------------------ *)
Module Stated.

Import Calls.

(** "Every call to cancel_lb issues exactly two remote calls in order":
    the billing item lookup, then the cancellation of the id found in
    the answer of the lookup. *)
Definition cancel_issues_two_calls
    (remote : oracle) (loadbal_id : value) (log : list call) : Prop :=
  exists lb_billing billing_id,
    remote log (getBillingItem loadbal_id) = Ok lb_billing /\
    getitem_key lb_billing "id" = Ok billing_id /\
    snd (cancel_lb remote loadbal_id log) =
      log ++ [getBillingItem loadbal_id; cancelService billing_id].

(** What the API hands back where there is no billing item: nothing. *)
Definition no_billing_item (lb_billing : value) : Prop :=
  lb_billing = VNone \/ lb_billing = VStr "".

(** "When the lookup returns no billing item, the second remote call is
    still reached and its error is the one the caller sees." *)
Definition cancel_reaches_second_call
    (remote : oracle) (loadbal_id : value) (log : list call) : Prop :=
  forall lb_billing,
    remote log (getBillingItem loadbal_id) = Ok lb_billing ->
    no_billing_item lb_billing ->
    exists billing_id,
      cancel_lb remote loadbal_id log =
        (remote (log ++ [getBillingItem loadbal_id])
                (cancelService billing_id),
         log ++ [getBillingItem loadbal_id; cancelService billing_id]).

(** The service at position [k] of group [j] of virtual server [i]. *)
Definition service_at (virtual_servers : value) (i j k : nat)
  : result value :=
  get_path [Idx i; Key "serviceGroups"; Idx j; Key "services"; Idx k]
           virtual_servers.

(** No service of the fetched tree has the id [service_id]. *)
Definition service_absent (service_id virtual_servers : value) : Prop :=
  forall i j k s id,
    service_at virtual_servers i j k = Ok s ->
    getitem_key s "id" = Ok id -> py_eq id service_id = false.

(** "Where the target service id does not appear in the fetched tree, the
    call still submits the unmodified tree." *)
Definition edit_absent_submits
    (remote : oracle) (query_filter : value -> result value)
    (loadbal_id service_id ip_address_id port enabled hc_type weight : value)
    (log : list call) : Prop :=
  forall operation virtual_servers,
    query_filter service_id = Ok operation ->
    remote log (getVirtualServers_by_service operation loadbal_id)
      = Ok virtual_servers ->
    service_absent service_id virtual_servers ->
    snd (edit_service remote query_filter loadbal_id service_id
                      ip_address_id port enabled hc_type weight log) =
      log ++ [getVirtualServers_by_service operation loadbal_id;
              editObject (VDict [("virtualServers", virtual_servers)])
                         loadbal_id].

(** A record of a list of records that carries an id. *)
Definition has_id (record : value) : Prop :=
  exists id, getitem_key record "id" = Ok id.

(** A datacenter record with a name other than [name]. *)
Definition other_name (name : string) (dcenter : value) : Prop :=
  exists n, getitem_key dcenter "name" = Ok n /\ py_eq n (VStr name) = false.

End Stated.

(* ------------------------------------------------------------------ *)
(** ** Shapes of runs and of records                                   *)
(* ------------------------------------------------------------------ *)
Module Shape.


(** A record whose id is not [target]. *)
Definition other_id (target record : value) : Prop :=
  exists id, getitem_key record "id" = Ok id /\ py_eq id target = false.

(** A record whose id is [target]. *)
Definition same_id (target record : value) : Prop :=
  exists id, getitem_key record "id" = Ok id /\ py_eq id target = true.

(** A record read before and after a loop body ran on it, with the same
    id both times. *)
Definition keeps_id (before after : value) : Prop :=
  getitem_key after "id" = getitem_key before "id".

End Shape.

(* ------------------------------------------------------------------ *)
(** ** Facts about the builtins                                        *)
(* ------------------------------------------------------------------ *)
Section PyFacts.

Lemma rbind_Ok {A B} (r : result A) (k : A -> result B) (b : B) :
  rbind r k = Ok b -> exists a, r = Ok a /\ k a = Ok b.
Proof.
  destruct r as [a|e]; simpl; intros H; [eauto | discriminate].
Qed.

Lemma dict_get_set_same k v d : dict_get k (dict_set k v d) = Some v.
Proof.
  induction d as [|[k' v'] d IH]; simpl.
  - now rewrite String.eqb_refl.
  - destruct (String.eqb k k') eqn:E; simpl; now rewrite E.
Qed.

Lemma dict_get_set_other k k' v d :
  String.eqb k k' = false -> dict_get k (dict_set k' v d) = dict_get k d.
Proof.
  intros Hk. induction d as [|[k0 v0] d IH]; simpl.
  - now rewrite Hk.
  - destruct (String.eqb k' k0) eqn:E; simpl.
    + apply String.eqb_eq in E; subst k0. now rewrite Hk.
    + now rewrite IH.
Qed.

Lemma dict_set_get_id k v d : dict_get k d = Some v -> dict_set k v d = d.
Proof.
  induction d as [|[k' v'] d IH]; simpl; [discriminate|].
  destruct (String.eqb k k') eqn:E; intros H.
  - now inversion H.
  - now rewrite IH.
Qed.

Lemma nth_error_list_set_same {A} i (x y : A) l :
  nth_error l i = Some y -> nth_error (list_set i x l) i = Some x.
Proof.
  revert i; induction l as [|z l IH]; intros [|i]; simpl; try discriminate;
    auto.
Qed.

Lemma nth_error_list_set_other {A} i j (x : A) l :
  i <> j -> nth_error (list_set i x l) j = nth_error l j.
Proof.
  revert i j; induction l as [|z l IH]; intros [|i] [|j] Hij; simpl; auto;
    try contradiction.
Qed.

Lemma list_set_id {A} i (x : A) l :
  nth_error l i = Some x -> list_set i x l = l.
Proof.
  revert i; induction l as [|z l IH]; intros [|i]; simpl; try discriminate.
  - intros H; now inversion H.
  - intros H; now rewrite IH.
Qed.

Lemma getitem_key_dict v k x :
  getitem_key v k = Ok x -> exists d, v = VDict d /\ dict_get k d = Some x.
Proof.
  destruct v; simpl; try discriminate.
  destruct (dict_get k d) eqn:E; [|discriminate].
  intros H; inversion H; subst; eauto.
Qed.

(** Putting back the child that is already there changes nothing. *)
Lemma putback_id v s c : getitem v s = Ok c -> putback v s c = v.
Proof.
  destruct s as [k|i], v; simpl; try discriminate; auto.
  - destruct (dict_get k d) eqn:E; [|discriminate].
    intros H; inversion H; subst. now rewrite (dict_set_get_id _ _ _ E).
  - destruct (nth_error l i) eqn:E; [|discriminate].
    intros H; inversion H; subst. now rewrite (list_set_id _ _ _ E).
Qed.

(** After an update of the child at [s], the subscript [s] yields it,
    unless the parent is a str, which has no child to update. *)
Lemma getitem_putback_same v s c c' :
  getitem v s = Ok c ->
  getitem (putback v s c') s = Ok c' \/
  (exists str, v = VStr str /\ putback v s c' = v).
Proof.
  destruct s as [k|i], v; simpl; try discriminate; eauto.
  - intros _. left. now rewrite dict_get_set_same.
  - destruct (nth_error l i) eqn:E; [|discriminate]. intros _. left.
    now rewrite (nth_error_list_set_same _ _ _ _ E).
Qed.

(** A subscript other than [s] does not see an update of the child at [s]. *)
Lemma getitem_putback_other v s t c c' :
  getitem v s = Ok c -> diverge [s] [t] = true ->
  getitem (putback v s c') t = getitem v t.
Proof.
  destruct s as [k|i], t as [k'|j], v; simpl; try discriminate; auto.
  - intros _. destruct (String.eqb k k') eqn:E; [discriminate|]. intros _.
    rewrite dict_get_set_other; auto.
    rewrite String.eqb_sym. exact E.
  - intros _. destruct (Nat.eqb i j) eqn:E; [discriminate|]. intros _.
    apply Nat.eqb_neq in E. now rewrite nth_error_list_set_other.
Qed.

(** An update confined to the positions under [p2] of the object reached
    by [p] is confined to the positions under [p ++ p2]. *)
Lemma modify_path_frame p p2 f :
  (forall x x' q, f x = Ok x' -> diverge p2 q = true ->
                  get_path q x' = get_path q x) ->
  forall v v' q, modify_path p f v = Ok v' ->
                 diverge (p ++ p2) q = true ->
                 get_path q v' = get_path q v.
Proof.
  intros Hf. induction p as [|s p IH]; intros v v' q Hm Hd.
  - simpl in *. eauto.
  - simpl in Hm.
    apply rbind_Ok in Hm as (c & Hc & Hm).
    apply rbind_Ok in Hm as (c' & Hc' & Hm).
    inversion Hm; subst v'; clear Hm.
    destruct q as [|t q]; [destruct s; discriminate|].
    simpl.
    destruct (diverge [s] [t]) eqn:Hst.
    + now rewrite (getitem_putback_other _ _ _ _ _ Hc Hst).
    + assert (t = s /\ diverge (p ++ p2) q = true) as [-> Hq].
      { destruct s as [a|i], t as [b|j]; simpl in Hst, Hd; try discriminate.
        - destruct (String.eqb a b) eqn:E; [|discriminate].
          apply String.eqb_eq in E; subst; auto.
        - destruct (Nat.eqb i j) eqn:E; [|discriminate].
          apply Nat.eqb_eq in E; subst; auto. }
      destruct (getitem_putback_same v s c c' Hc) as [H|(str & _ & H)].
      * simpl. rewrite H, Hc. simpl. eauto.
      * now rewrite H.
Qed.

Lemma modify_path_outside p f v v' q :
  modify_path p f v = Ok v' -> diverge p q = true ->
  get_path q v' = get_path q v.
Proof.
  intros Hm Hd. apply (modify_path_frame p [] f) with (v := v); auto.
  - intros x x' q' _ Hq. destruct q'; discriminate.
  - now rewrite app_nil_r.
Qed.

(** A position [q] of the updated object that the update keeps is kept at
    [p ++ q] of the whole. *)
Lemma modify_path_inside p f q :
  (forall x x', f x = Ok x' -> get_path q x' = get_path q x) ->
  forall v v', modify_path p f v = Ok v' ->
               get_path (p ++ q) v' = get_path (p ++ q) v.
Proof.
  intros Hf. induction p as [|s p IH]; intros v v' Hm; simpl in Hm.
  - simpl. eauto.
  - apply rbind_Ok in Hm as (c & Hc & Hm).
    apply rbind_Ok in Hm as (c' & Hc' & Hm).
    inversion Hm; subst v'; clear Hm. simpl.
    destruct (getitem_putback_same v s c c' Hc) as [H|(str & _ & H)].
    + rewrite H, Hc. simpl. eauto.
    + now rewrite H.
Qed.

(** An update that changes nothing leaves the whole object as it was. *)
Lemma modify_path_id p f :
  (forall x x', f x = Ok x' -> x' = x) ->
  forall v v', modify_path p f v = Ok v' -> v' = v.
Proof.
  intros Hf. induction p as [|s p IH]; intros v v' Hm; simpl in Hm.
  - eauto.
  - apply rbind_Ok in Hm as (c & Hc & Hm).
    apply rbind_Ok in Hm as (c' & Hc' & Hm).
    inversion Hm; subst v'. rewrite (IH _ _ Hc'). now apply putback_id.
Qed.

Lemma modify_path_Ok_id p f v c :
  get_path p v = Ok c -> f c = Ok c -> modify_path p f v = Ok v.
Proof.
  revert v; induction p as [|s p IH]; intros v Hg Hf; simpl in *.
  - inversion Hg; subst; auto.
  - destruct (getitem v s) as [c0|] eqn:Hc; simpl in *; [|discriminate].
    rewrite (IH _ Hg Hf). simpl. now rewrite (putback_id _ _ _ Hc).
Qed.

(** An update through [p] that fails on strings, or leaves them alone,
    does so on every str it is run on. *)
Lemma modify_path_str p f :
  (forall s x', f (VStr s) = Ok x' -> x' = VStr s) ->
  forall s x', modify_path p f (VStr s) = Ok x' -> x' = VStr s.
Proof.
  intros Hf. destruct p as [|t p]; intros s x' Hm; simpl in Hm.
  - eauto.
  - apply rbind_Ok in Hm as (c & Hc & Hm).
    apply rbind_Ok in Hm as (c' & Hc' & Hm).
    inversion Hm; subst. destruct t; reflexivity.
Qed.

(** What a successful update through [p] did: it reached an object, ran
    the update on it, and the outcome sits at [p] afterwards. *)
Lemma modify_path_get p f :
  (forall s x', f (VStr s) = Ok x' -> x' = VStr s) ->
  forall v v', modify_path p f v = Ok v' ->
    exists c c', get_path p v = Ok c /\ f c = Ok c' /\
                 get_path p v' = Ok c'.
Proof.
  intros Hf. induction p as [|s p IH]; intros v v' Hm; simpl in Hm.
  - exists v, v'. simpl. auto.
  - apply rbind_Ok in Hm as (c0 & Hc0 & Hm).
    apply rbind_Ok in Hm as (c0' & Hc0' & Hm).
    inversion Hm; subst v'; clear Hm.
    destruct (IH _ _ Hc0') as (c & c' & Hg & Hfc & Hg').
    exists c, c'. simpl. rewrite Hc0. simpl. repeat split; auto.
    destruct (getitem_putback_same v s c0 c0' Hc0) as [H|(str & Hv & H)].
    + rewrite H. simpl. exact Hg'.
    + rewrite H, Hc0. simpl. subst v.
      destruct s as [k|i]; simpl in Hc0; [discriminate|].
      destruct (nth_error (chars str) i) eqn:E; [|discriminate].
      inversion Hc0; subst c0. unfold chars in E.
      apply nth_error_In, in_map_iff in E as (a & <- & _).
      now rewrite <- (modify_path_str p f Hf _ _ Hc0').
Qed.

Lemma setitem_key_frame v k x v' q :
  setitem_key v k x = Ok v' -> diverge [Key k] q = true ->
  get_path q v' = get_path q v.
Proof.
  destruct v; simpl; try discriminate. intros H; inversion H; subst.
  destruct q as [|[b|j] q]; simpl; try discriminate; auto.
  destruct (String.eqb k b) eqn:E; [discriminate|]. intros _.
  rewrite dict_get_set_other; auto. now rewrite String.eqb_sym.
Qed.

Lemma setitem_key_get v k x v' :
  setitem_key v k x = Ok v' ->
  getitem_key v' k = Ok x /\
  forall k', k' <> k -> getitem_key v' k' = getitem_key v k'.
Proof.
  destruct v; simpl; try discriminate. intros H; inversion H; subst.
  simpl. rewrite dict_get_set_same. split; auto.
  intros k' Hk. apply String.eqb_neq in Hk. now rewrite dict_get_set_other.
Qed.

Lemma modify_path_Ok p f v c c' :
  get_path p v = Ok c -> f c = Ok c' -> exists v', modify_path p f v = Ok v'.
Proof.
  revert v; induction p as [|s p IH]; intros v Hg Hf; simpl in *.
  - inversion Hg; subst; eauto.
  - destruct (getitem v s) as [c0|] eqn:Hc; simpl in *; [|discriminate].
    destruct (IH _ Hg Hf) as [c0' ->]. simpl. eauto.
Qed.

Lemma get_path_app p q v :
  get_path (p ++ q) v = rbind (get_path p v) (get_path q).
Proof.
  revert v; induction p as [|s p IH]; intros v; simpl; auto.
  destruct (getitem v s); simpl; auto.
Qed.

(** *** Loops *)

Lemma mapM_nth {A B} (f : A -> result B) l l' :
  mapM f l = Ok l' ->
  List.length l' = List.length l /\
  forall i x, nth_error l i = Some x ->
              exists x', nth_error l' i = Some x' /\ f x = Ok x'.
Proof.
  revert l'; induction l as [|a l IH]; intros l' H; simpl in H.
  - inversion H; subst. split; auto. intros [|i] x; discriminate.
  - apply rbind_Ok in H as (y & Hy & H).
    apply rbind_Ok in H as (ys & Hys & H). inversion H; subst.
    destruct (IH _ Hys) as [Hlen Hnth]. split; [simpl; congruence|].
    intros [|i] x Hx; simpl in *.
    + inversion Hx; subst. eauto.
    + eauto.
Qed.

Lemma mapM_id {A} (f : A -> result A) l l' :
  (forall x x', f x = Ok x' -> x' = x) -> mapM f l = Ok l' -> l' = l.
Proof.
  intros Hf. revert l'; induction l as [|a l IH]; intros l' H; simpl in H.
  - now inversion H.
  - apply rbind_Ok in H as (y & Hy & H).
    apply rbind_Ok in H as (ys & Hys & H). inversion H; subst.
    now rewrite (Hf _ _ Hy), (IH _ Hys).
Qed.

Lemma mapM_Forall_id {A} (f : A -> result A) l :
  Forall (fun x => f x = Ok x) l -> mapM f l = Ok l.
Proof.
  induction 1 as [|a l Ha _ IH]; simpl; auto. now rewrite Ha, IH.
Qed.

Lemma mapM_Forall_Ok {A B} (f : A -> result B) l :
  Forall (fun x => exists y, f x = Ok y) l -> exists l', mapM f l = Ok l'.
Proof.
  induction 1 as [|a l [y Hy] _ [l' IH]]; simpl; eauto.
  rewrite Hy, IH. simpl. eauto.
Qed.

Lemma for_each_id body v v' :
  (forall x x', body x = Ok x' -> x' = x) -> for_each body v = Ok v' -> v' = v.
Proof.
  intros Hb. destruct v; simpl; try discriminate; intros H.
  - apply rbind_Ok in H as (x & _ & H). now inversion H.
  - apply rbind_Ok in H as (l' & Hl & H). inversion H.
    now rewrite (mapM_id _ _ _ Hb Hl).
  - apply rbind_Ok in H as (x & _ & H). now inversion H.
Qed.

Lemma py_append_str x s x' : py_append x (VStr s) = Ok x' -> x' = VStr s.
Proof. discriminate. Qed.

Lemma for_each_str body s x' : for_each body (VStr s) = Ok x' -> x' = VStr s.
Proof.
  simpl. intros H. apply rbind_Ok in H as (x & _ & H). now inversion H.
Qed.

(** A position that the loop body keeps in an item is kept in every item. *)
Lemma for_each_inside body q v v' :
  (forall x x', body x = Ok x' -> get_path q x' = get_path q x) ->
  for_each body v = Ok v' ->
  forall i, get_path (Idx i :: q) v' = get_path (Idx i :: q) v.
Proof.
  intros Hb H i. destruct v; simpl in H; try discriminate.
  - apply rbind_Ok in H as (x & _ & H). now inversion H.
  - apply rbind_Ok in H as (l' & Hl & H). inversion H; subst v'. simpl.
    destruct (mapM_nth _ _ _ Hl) as [Hlen Hnth].
    destruct (nth_error l i) as [x|] eqn:E.
    + destruct (Hnth _ _ E) as (x' & -> & Hx). simpl. eauto.
    + apply nth_error_None in E. rewrite <- Hlen in E.
      apply nth_error_None in E. now rewrite E.
  - apply rbind_Ok in H as (x & _ & H). now inversion H.
Qed.

Lemma for_each_nth body l v' :
  for_each body (VList l) = Ok v' ->
  exists l', v' = VList l' /\ List.length l' = List.length l /\
    forall i x, nth_error l i = Some x ->
                exists x', nth_error l' i = Some x' /\ body x = Ok x'.
Proof.
  simpl. intros H. apply rbind_Ok in H as (l' & Hl & H). inversion H; subst.
  exists l'. split; auto. now apply mapM_nth.
Qed.

End PyFacts.

(* ------------------------------------------------------------------ *)
(** ** Facts about the methods                                         *)
(* ------------------------------------------------------------------ *)
Section ManagerFacts.

Import Calls.

Variable remote : oracle.
Variable query_filter : value -> result value.

(** Unfolds a method down to the answers of the remote side. *)
Ltac run_method :=
  unfold Remote.bind, invoke, lift; cbv beta zeta.

(** Two logs that extend the same log by different numbers of calls. *)
Lemma log_one_two (log : list call) (a b c : call) :
  log ++ [a] <> log ++ [b; c].
Proof.
  intros H. apply app_inv_head in H. discriminate.
Qed.

(** *** get_lb_pkgs *)

(** No value has an attribute [startsWith], so the test of the loop body
    never yields a truth value. *)
Lemma is_global_raises package : exists e, is_global package = Raise e.
Proof.
  unfold is_global.
  destruct (getitem_key package "description") as [d|e]; simpl; eauto.
  assert (H : hasattr d "startsWith" = false) by (destruct d; reflexivity).
  unfold call_method. rewrite H. simpl. eauto.
Qed.

Lemma get_lb_pkgs_nonempty_raises log operation package packages :
  query_filter (VStr "*Load Balancer*") = Ok operation ->
  remote log (getItems operation) = Ok (VList (package :: packages)) ->
  exists e, get_lb_pkgs remote query_filter log
            = (Raise e, log ++ [getItems operation]).
Proof.
  intros Hq H. unfold get_lb_pkgs. run_method. rewrite Hq. cbv beta iota.
  change (Call prod_pkg _ _ _) with (getItems operation).
  rewrite H. simpl.
  destruct (is_global_raises package) as [e ->]. simpl. eauto.
Qed.

Lemma list_remove_length x l l' :
  list_remove x l = Ok l' -> List.length l = S (List.length l').
Proof.
  revert l'; induction l as [|y l IH]; intros l'; simpl; [discriminate|].
  destruct (py_eq y x).
  - intros H; now inversion H.
  - intros H. apply rbind_Ok in H as (r & Hr & H). inversion H; subst.
    simpl. now rewrite (IH _ Hr).
Qed.

(** The loop over a list ends within as many rounds as the list has items
    ahead of the iterator: more rounds change nothing. *)
Lemma remove_globals_rounds n m i packages :
  List.length packages - i <= n -> List.length packages - i <= m ->
  remove_globals n i packages = remove_globals m i packages.
Proof.
  revert m i packages.
  induction n as [|n IH]; intros [|m] i packages Hn Hm; simpl; auto.
  - assert (E : nth_error packages i = None)
      by (apply nth_error_None; lia).
    now rewrite E.
  - assert (E : nth_error packages i = None)
      by (apply nth_error_None; lia).
    now rewrite E.
  - destruct (nth_error packages i) as [package|] eqn:E; auto.
    destruct (is_global package) as [[|]|e]; simpl; auto.
    + destruct (list_remove package packages) as [packages'|e] eqn:R;
        simpl; auto.
      apply list_remove_length in R. apply IH; lia.
    + apply IH; lia.
Qed.

(** *** edit_service *)


Lemma edit_service_run lb sid ip port en hc w log operation vs :
  query_filter sid = Ok operation ->
  remote log (getVirtualServers_by_service operation lb) = Ok vs ->
  edit_service remote query_filter lb sid ip port en hc w log =
  let fetch := getVirtualServers_by_service operation lb in
  match modify_path first_services
          (for_each (edit_service_node sid ip port en hc w)) vs with
  | Ok vs' =>
      let submit := editObject (VDict [("virtualServers", vs')]) lb in
      (remote (log ++ [fetch]) submit, log ++ [fetch; submit])
  | Raise e => (Raise e, log ++ [fetch])
  end.
Proof.
  intros Hq H. unfold edit_service. run_method. rewrite Hq. cbv beta iota.
  change (Call lb_svc "getVirtualServers" _ _)
    with (getVirtualServers_by_service operation lb).
  rewrite H. cbv beta iota.
  destruct (modify_path _ _ vs); cbv beta iota; auto.
  now rewrite <- app_assoc.
Qed.

Lemma edit_service_submitted lb sid ip port en hc w log operation vs vs' :
  query_filter sid = Ok operation ->
  remote log (getVirtualServers_by_service operation lb) = Ok vs ->
  snd (edit_service remote query_filter lb sid ip port en hc w log) =
    log ++ [getVirtualServers_by_service operation lb;
            editObject (VDict [("virtualServers", vs')]) lb] ->
  modify_path first_services
    (for_each (edit_service_node sid ip port en hc w)) vs = Ok vs'.
Proof.
  intros Hop H. rewrite (edit_service_run _ _ _ _ _ _ _ _ _ _ Hop H). cbv zeta.
  destruct (modify_path _ _ vs) as [vs''|e]; cbn [snd]; intros E.
  - apply app_inv_head in E. now inversion E.
  - now apply log_one_two in E.
Qed.

(** Each store of the loop body is confined to its own field; a store
    that the sentinel switches off confines nothing. *)
Lemma edit_service_node_frame sid ip port en hc w s s' q :
  edit_service_node sid ip port en hc w s = Ok s' ->
  (py_ne en (VInt (-1)) = true -> diverge [Key "enabled"] q = true) ->
  (py_ne port (VInt (-1)) = true -> diverge [Key "port"] q = true) ->
  (py_ne w (VInt (-1)) = true ->
   diverge [Key "groupReferences"; Idx 0; Key "weight"] q = true) ->
  (py_ne hc (VInt (-1)) = true ->
   diverge [Key "healthChecks"; Idx 0; Key "healthCheckTypeId"] q = true) ->
  (py_ne ip (VInt 0) = true -> diverge [Key "ipAddressId"] q = true) ->
  get_path q s' = get_path q s.
Proof.
  unfold edit_service_node. intros H Hen Hport Hw Hhc Hip.
  apply rbind_Ok in H as (id & _ & H).
  destruct (py_eq id sid); [|now inversion H].
  apply rbind_Ok in H as (s1 & H1 & H).
  apply rbind_Ok in H as (s2 & H2 & H).
  apply rbind_Ok in H as (s3 & H3 & H).
  apply rbind_Ok in H as (s4 & H4 & H).
  transitivity (get_path q s4).
  { destruct (py_ne ip (VInt 0)); [|now inversion H].
    eapply setitem_key_frame; eauto. }
  transitivity (get_path q s3).
  { destruct (py_ne hc (VInt (-1))); [|now inversion H4].
    eapply (modify_path_frame [Key "healthChecks"; Idx 0]
              [Key "healthCheckTypeId"]); eauto.
    intros x x' q'. apply setitem_key_frame. }
  transitivity (get_path q s2).
  { destruct (py_ne w (VInt (-1))); [|now inversion H3].
    eapply (modify_path_frame [Key "groupReferences"; Idx 0]
              [Key "weight"]); eauto.
    intros x x' q'. apply setitem_key_frame. }
  transitivity (get_path q s1).
  { destruct (py_ne port (VInt (-1))); [|now inversion H2].
    eapply setitem_key_frame; eauto. }
  destruct (py_ne en (VInt (-1))); [|now inversion H1].
  eapply setitem_key_frame; eauto.
Qed.

(** A service with another id is left alone, whatever the arguments. *)
Lemma edit_service_node_other sid ip port en hc w s id :
  getitem_key s "id" = Ok id -> py_eq id sid = false ->
  edit_service_node sid ip port en hc w s = Ok s.
Proof.
  intros Hid Hne. unfold edit_service_node. rewrite Hid. simpl.
  now rewrite Hne.
Qed.

(** With every argument at its sentinel the body stores nothing. *)
Lemma edit_service_node_sentinels sid s id :
  getitem_key s "id" = Ok id ->
  edit_service_node sid (VInt 0) (VInt (-1)) (VInt (-1)) (VInt (-1))
                    (VInt (-1)) s = Ok s.
Proof.
  intros Hid. unfold edit_service_node. rewrite Hid. simpl.
  now destruct (py_eq id sid).
Qed.

(** With only a port given, the body stores the port of a matching
    service. *)
Lemma edit_service_node_port sid port s s' :
  py_eq port (VInt (-1)) = false ->
  edit_service_node sid (VInt 0) port (VInt (-1)) (VInt (-1))
                    (VInt (-1)) s = Ok s' ->
  exists id, getitem_key s "id" = Ok id /\
    (py_eq id sid = false -> s' = s) /\
    (py_eq id sid = true -> setitem_key s "port" port = Ok s').
Proof.
  intros Hp. unfold edit_service_node, py_ne. rewrite Hp. simpl.
  destruct (getitem_key s "id") as [id|e]; simpl; [|discriminate].
  intros H. exists id. split; auto.
  destruct (py_eq id sid).
  - split; [discriminate|]. intros _.
    destruct (setitem_key s "port" port); simpl in H; auto.
  - split; [|discriminate]. intros _. now inversion H.
Qed.

Lemma edit_service_node_str sid ip port en hc w str :
  exists e, edit_service_node sid ip port en hc w (VStr str) = Raise e.
Proof. unfold edit_service_node. simpl. eauto. Qed.

(** The items of an object that the loop went through without failing:
    each item of a list, seen before and after the body ran on it. *)
Lemma for_each_item body c c' i x :
  (forall str, exists e, body (VStr str) = Raise e) ->
  for_each body c = Ok c' ->
  getitem_idx c i = Ok x ->
  exists x', getitem_idx c' i = Ok x' /\ body x = Ok x'.
Proof.
  intros Hstr Hfe Hx. destruct c; simpl in Hx; try discriminate.
  - exfalso. simpl in Hfe. apply rbind_Ok in Hfe as (l' & Hl & _).
    destruct (nth_error (chars s) i) as [y|] eqn:E; [|discriminate].
    destruct (mapM_nth _ _ _ Hl) as [_ Hn].
    destruct (Hn _ _ E) as (y' & _ & Hy).
    unfold chars in E. apply nth_error_In, in_map_iff in E as (a & <- & _).
    destruct (Hstr (String a EmptyString)) as [e He]. congruence.
  - destruct (nth_error l i) as [y|] eqn:E; [|discriminate].
    inversion Hx; subst y.
    destruct (for_each_nth _ _ _ Hfe) as (l' & -> & _ & Hn).
    destruct (Hn _ _ E) as (x' & Hx' & Hb). exists x'. simpl.
    now rewrite Hx'.
Qed.

(** *** add_service *)

Lemma add_service_run lb gid ip port en hc w log lbv :
  remote log (getObject lb) = Ok lbv ->
  add_service remote lb gid ip port en hc w log =
  match modify_path [Key "virtualServers"]
          (for_each (add_service_node gid ip port en hc w)) lbv with
  | Ok lbv' =>
      (remote (log ++ [getObject lb]) (editObject lbv' lb),
       log ++ [getObject lb; editObject lbv' lb])
  | Raise e => (Raise e, log ++ [getObject lb])
  end.
Proof.
  intros H. unfold add_service. run_method.
  change (Call lb_svc "getObject" _ _) with (getObject lb).
  rewrite H. cbv beta iota.
  destruct (modify_path _ _ lbv); cbv beta iota; auto.
  now rewrite <- app_assoc.
Qed.

Lemma add_service_submitted lb gid ip port en hc w log lbv lbv' :
  remote log (getObject lb) = Ok lbv ->
  snd (add_service remote lb gid ip port en hc w log) =
    log ++ [getObject lb; editObject lbv' lb] ->
  modify_path [Key "virtualServers"]
    (for_each (add_service_node gid ip port en hc w)) lbv = Ok lbv'.
Proof.
  intros H. rewrite (add_service_run _ _ _ _ _ _ _ _ _ H).
  destruct (modify_path _ _ lbv) as [x|e]; cbn [snd]; intros E.
  - apply app_inv_head in E. now inversion E.
  - now apply log_one_two in E.
Qed.

Lemma add_service_node_frame gid ip port en hc w v v' q :
  add_service_node gid ip port en hc w v = Ok v' ->
  diverge group0_services q = true ->
  get_path q v' = get_path q v.
Proof.
  unfold add_service_node. intros H Hq.
  apply rbind_Ok in H as (id & _ & H).
  destruct (py_eq id gid); [|now inversion H].
  eapply modify_path_outside; eauto.
Qed.

Lemma add_service_node_str gid ip port en hc w str :
  exists e, add_service_node gid ip port en hc w (VStr str) = Raise e.
Proof. unfold add_service_node. simpl. eauto. Qed.

(** *** edit_service_group *)

Lemma edit_service_group_run lb gid alloc port rt rm log lbv :
  remote log (getObject lb) = Ok lbv ->
  edit_service_group remote lb gid alloc port rt rm log =
  match modify_path [Key "virtualServers"]
          (for_each (edit_service_group_node gid alloc port rt rm)) lbv with
  | Ok lbv' =>
      (remote (log ++ [getObject lb]) (editObject lbv' lb),
       log ++ [getObject lb; editObject lbv' lb])
  | Raise e => (Raise e, log ++ [getObject lb])
  end.
Proof.
  intros H. unfold edit_service_group. run_method.
  change (Call lb_svc "getObject" _ _) with (getObject lb).
  rewrite H. cbv beta iota.
  destruct (modify_path _ _ lbv); cbv beta iota; auto.
  now rewrite <- app_assoc.
Qed.

Lemma edit_service_group_submitted lb gid alloc port rt rm log lbv lbv' :
  remote log (getObject lb) = Ok lbv ->
  snd (edit_service_group remote lb gid alloc port rt rm log) =
    log ++ [getObject lb; editObject lbv' lb] ->
  modify_path [Key "virtualServers"]
    (for_each (edit_service_group_node gid alloc port rt rm)) lbv = Ok lbv'.
Proof.
  intros H. rewrite (edit_service_group_run _ _ _ _ _ _ _ _ H).
  destruct (modify_path _ _ lbv) as [x|e]; cbn [snd]; intros E.
  - apply app_inv_head in E. now inversion E.
  - now apply log_one_two in E.
Qed.

Lemma edit_service_group_node_frame gid alloc port rt rm v v' q :
  edit_service_group_node gid alloc port rt rm v = Ok v' ->
  diverge [Key "allocation"] q = true ->
  diverge [Key "port"] q = true ->
  diverge (group0 ++ [Key "routingTypeId"]) q = true ->
  diverge (group0 ++ [Key "routingMethodId"]) q = true ->
  get_path q v' = get_path q v.
Proof.
  unfold edit_service_group_node. intros H Ha Hp Hrt Hrm.
  apply rbind_Ok in H as (id & _ & H).
  destruct (py_eq id gid); [|now inversion H].
  apply rbind_Ok in H as (g & _ & H).
  apply rbind_Ok in H as (v1 & H1 & H).
  apply rbind_Ok in H as (v2 & H2 & H).
  apply rbind_Ok in H as (v3 & H3 & H).
  transitivity (get_path q v3).
  { destruct (py_ne rm (VInt 0)); [|now inversion H].
    eapply (modify_path_frame group0 [Key "routingMethodId"]); eauto.
    intros x x' q'. apply setitem_key_frame. }
  transitivity (get_path q v2).
  { destruct (py_ne rt (VInt 0)); [|now inversion H3].
    eapply (modify_path_frame group0 [Key "routingTypeId"]); eauto.
    intros x x' q'. apply setitem_key_frame. }
  transitivity (get_path q v1).
  { destruct (py_ne port (VInt 0)); [|now inversion H2].
    eapply setitem_key_frame; eauto. }
  destruct (py_ne alloc (VInt (-1))); [|now inversion H1].
  eapply setitem_key_frame; eauto.
Qed.

End ManagerFacts.

(* ------------------------------------------------------------------ *)
(** ** The properties of the manager                                   *)
(* ------------------------------------------------------------------ *)
Section Properties.

Import Calls Sample Stated.

(** *** get_lb_pkgs *)

(** C1: the catalog returned by [get_lb_pkgs] should come back without its
    "Global" entries.  On a catalog with a Global and a local entry the
    method returns no list at all: the test of the first entry looks up
    [startsWith], which no str has, and the call ends in
    [AttributeError] right after the remote lookup. *)
Theorem get_lb_pkgs_catalog_raises :
  get_lb_pkgs remote_catalog qf [] =
    (Raise AttributeError, [getItems (op (VStr "*Load Balancer*"))]).
Proof. reflexivity. Qed.

(** *** cancel_lb *)

(** C4, as stated, fails: when the lookup fails remotely, or answers with
    nothing, the lookup is the only call. *)
Lemma cancel_lb_single_call :
  ~ cancel_issues_two_calls remote_billing_down (VInt 1) [] /\
  ~ cancel_issues_two_calls remote_no_billing (VInt 1) [].
Proof.
  split; intros (lb_billing & billing_id & H & Hid & _).
  - discriminate H.
  - inversion H; subst. discriminate Hid.
Qed.

(** C4, amended: a call to [cancel_lb] whose lookup answers with a record
    that has an id issues exactly two remote calls in order, the billing
    item lookup keyed by the load balancer id and the cancellation keyed
    by that id, and returns what the cancellation returns.  A call whose
    lookup fails, or answers with something that has no id, issues the
    lookup only and raises. *)
Theorem cancel_lb_two_calls
    (remote : oracle) (loadbal_id : value) (log : list call) :
  let lookup := getBillingItem loadbal_id in
  (forall lb_billing billing_id,
      remote log lookup = Ok lb_billing ->
      getitem_key lb_billing "id" = Ok billing_id ->
      cancel_lb remote loadbal_id log =
        (remote (log ++ [lookup]) (cancelService billing_id),
         log ++ [lookup; cancelService billing_id])) /\
  (forall e,
      remote log lookup = Raise e ->
      cancel_lb remote loadbal_id log = (Raise e, log ++ [lookup])) /\
  (forall lb_billing e,
      remote log lookup = Ok lb_billing ->
      getitem_key lb_billing "id" = Raise e ->
      cancel_lb remote loadbal_id log = (Raise e, log ++ [lookup])).
Proof.
  intros lookup. unfold cancel_lb, Remote.bind, invoke, lift.
  change (Call lb_svc "getBillingItem" _ _) with lookup.
  repeat split.
  - intros lb_billing billing_id H Hid. rewrite H, Hid. cbv beta iota.
    change (Call billing_item_svc _ _ _) with (cancelService billing_id).
    now rewrite <- app_assoc.
  - intros e H. now rewrite H.
  - intros lb_billing e H Hid. now rewrite H, Hid.
Qed.

Lemma cancel_lb_two_calls_witness :
  cancel_lb remote_billing (VInt 1) [] =
    (Ok (VBool true), [getBillingItem (VInt 1); cancelService (VInt 9)]).
Proof.
  exact (proj1 (cancel_lb_two_calls remote_billing (VInt 1) [])
           (VDict [("id", VInt 9)]) (VInt 9) eq_refl eq_refl).
Defined.

(** C5, as stated, fails: with no billing item the cancellation is not
    reached, and the error the caller sees is not the remote one. *)
Lemma cancel_lb_stops_locally :
  ~ cancel_reaches_second_call remote_no_billing (VInt 1) [].
Proof.
  intros H. destruct (H VNone eq_refl (or_introl eq_refl)) as [b Hb].
  discriminate Hb.
Qed.

(** C5, amended: when the lookup returns no billing item, the subscript
    [lb_billing['id']] raises [TypeError] locally; the lookup is the only
    remote call and the cancellation is never issued. *)
Theorem cancel_lb_no_billing_item
    (remote : oracle) (loadbal_id : value) (log : list call)
    (lb_billing : value) :
  remote log (getBillingItem loadbal_id) = Ok lb_billing ->
  no_billing_item lb_billing ->
  cancel_lb remote loadbal_id log =
    (Raise TypeError, log ++ [getBillingItem loadbal_id]).
Proof.
  intros H Hno. unfold cancel_lb, Remote.bind, invoke, lift.
  change (Call lb_svc "getBillingItem" _ _) with (getBillingItem loadbal_id).
  rewrite H. destruct Hno; subst; reflexivity.
Qed.

Lemma cancel_lb_no_billing_item_witness :
  cancel_lb remote_no_billing (VInt 1) [] =
    (Raise TypeError, [getBillingItem (VInt 1)]).
Proof.
  exact (cancel_lb_no_billing_item remote_no_billing (VInt 1) [] VNone
           eq_refl
           (or_introl eq_refl)).
Defined.

(** *** get_location *)

Lemma find_location_first name pre r post id :
  Forall (other_name name) pre ->
  getitem_key r "name" = Ok (VStr name) ->
  getitem_key r "id" = Ok id ->
  find_location (VStr name) (pre ++ r :: post) = Ok id.
Proof.
  intros Hpre Hname Hid. induction Hpre as [|d pre (n & Hn & Hne) _ IH].
  - simpl. rewrite Hname. simpl. now rewrite String.eqb_refl.
  - simpl. rewrite Hn. simpl. now rewrite Hne.
Qed.

Lemma find_location_none name recs :
  Forall (other_name name) recs ->
  find_location (VStr name) recs = Ok (VStr "FIRST_AVAILABLE").
Proof.
  induction 1 as [|d recs (n & Hn & Hne) _ IH]; simpl; auto.
  rewrite Hn. simpl. now rewrite Hne.
Qed.

(** C6: for every datacenter name given to [get_location], over the list
    of datacenter records the lookup answers with: if a record has that
    exact name (the first such record, the ones before it carrying other
    names), the call returns the id of that record; if every record
    carries another name, the call returns ['FIRST_AVAILABLE'] and raises
    nothing. *)
Theorem get_location_resolves
    (remote : oracle) (name : string) (log : list call)
    (dcenters : list value) :
  remote log getDataCenters = Ok (VList dcenters) ->
  (forall pre r post id,
      dcenters = pre ++ r :: post ->
      Forall (other_name name) pre ->
      getitem_key r "name" = Ok (VStr name) ->
      getitem_key r "id" = Ok id ->
      get_location remote (VStr name) log
        = (Ok id, log ++ [getDataCenters])) /\
  (Forall (other_name name) dcenters ->
   get_location remote (VStr name) log
     = (Ok (VStr "FIRST_AVAILABLE"), log ++ [getDataCenters])).
Proof.
  intros H.
  assert (Hrun : get_location remote (VStr name) log =
                 (find_location (VStr name) dcenters,
                  log ++ [getDataCenters])).
  { unfold get_location, Remote.bind, invoke, lift.
    change (Call location_svc _ _ _) with getDataCenters.
    now rewrite H. }
  rewrite Hrun. split.
  - intros pre r post id -> Hpre Hname Hid.
    now rewrite (find_location_first _ _ _ _ _ Hpre Hname Hid).
  - intros Hall. now rewrite (find_location_none _ _ Hall).
Qed.

Lemma get_location_resolves_witness :
  get_location remote_locations (VStr "ams01") [] =
    (Ok (VInt 7), [getDataCenters]) /\
  get_location remote_locations (VStr "tok02") [] =
    (Ok (VStr "FIRST_AVAILABLE"), [getDataCenters]).
Proof.
  split.
  - refine (proj1 (get_location_resolves remote_locations "ams01" [] _
                     eq_refl)
              [VDict [("id", VInt 3); ("name", VStr "dal05")]]
              (VDict [("id", VInt 7); ("name", VStr "ams01")]) []
              (VInt 7) eq_refl _ eq_refl eq_refl).
    constructor; [|constructor].
    exists (VStr "dal05"). split; reflexivity.
  - refine (proj2 (get_location_resolves remote_locations "tok02" [] _
                     eq_refl) _).
    repeat constructor.
    + exists (VStr "dal05"). split; reflexivity.
    + exists (VStr "ams01"). split; reflexivity.
Defined.

(** *** add_service_group *)

(** C7: for every load balancer whose fetched snapshot holds N virtual
    server entries, [add_service_group] submits the snapshot with N+1
    entries: the N fetched ones followed by a new entry that carries the
    given port and allocation and a single service group record with the
    given routing type id and routing method id.  The other fields of the
    snapshot are submitted as fetched. *)
Theorem add_service_group_appends
    (remote : oracle)
    (lb_id allocation port routing_type routing_method : value)
    (log : list call) (load_balancer : value) (entries : list value) :
  remote log (getObject lb_id) = Ok load_balancer ->
  getitem_key load_balancer "virtualServers" = Ok (VList entries) ->
  exists payload entry group,
    add_service_group remote lb_id allocation port routing_type
                      routing_method log =
      (remote (log ++ [getObject lb_id]) (editObject payload lb_id),
       log ++ [getObject lb_id; editObject payload lb_id]) /\
    getitem_key payload "virtualServers" = Ok (VList (entries ++ [entry])) /\
    List.length (entries ++ [entry]) = S (List.length entries) /\
    getitem_key entry "port" = Ok port /\
    getitem_key entry "allocation" = Ok allocation /\
    getitem_key entry "serviceGroups" = Ok (VList [group]) /\
    getitem_key group "routingTypeId" = Ok routing_type /\
    getitem_key group "routingMethodId" = Ok routing_method /\
    (forall k, k <> "virtualServers" ->
               getitem_key payload k = getitem_key load_balancer k).
Proof.
  intros H Hvs.
  destruct (getitem_key_dict _ _ _ Hvs) as (d & -> & Hd).
  set (entry := group_template allocation port routing_type routing_method).
  exists (VDict (dict_set "virtualServers" (VList (entries ++ [entry])) d)),
         entry,
         (VDict [("routingTypeId", routing_type);
                 ("routingMethodId", routing_method)]).
  split.
  - unfold add_service_group, Remote.bind, invoke, lift. cbv beta zeta.
    change (Call lb_svc "getObject" _ _) with (getObject lb_id).
    rewrite H. cbn [modify_path getitem rbind]. rewrite Hvs.
    cbn [rbind py_append putback]. fold entry.
    now rewrite <- app_assoc.
  - repeat split; try reflexivity.
    + simpl. now rewrite dict_get_set_same.
    + rewrite length_app. simpl. lia.
    + intros k Hk. simpl. apply String.eqb_neq in Hk.
      now rewrite dict_get_set_other.
Qed.

Lemma add_service_group_appends_witness :
  exists payload entry sgroup,
    add_service_group remote_lb (VInt 1) (VInt 100) (VInt 443) (VInt 2)
                      (VInt 10) [] =
      (Ok (VBool true), [getObject (VInt 1); editObject payload (VInt 1)]) /\
    getitem_key payload "virtualServers" =
      Ok (VList ([virtual_server 50 [group 99 [service 11 80]];
                  virtual_server 51 [group 97 []; group 96 []]]
                 ++ [entry])) /\
    getitem_key entry "serviceGroups" = Ok (VList [sgroup]) /\
    getitem_key sgroup "routingTypeId" = Ok (VInt 2).
Proof.
  destruct (add_service_group_appends remote_lb (VInt 1) (VInt 100) (VInt 443)
              (VInt 2) (VInt 10) [] load_balancer _ eq_refl eq_refl)
    as (payload & entry & sgroup & Hrun & Hvs & _ & _ & _ & Hg & Hrt & _).
  exists payload, entry, sgroup. repeat split; assumption.
Defined.

(** *** reset_service_group *)

(** C8: every call to [reset_service_group] passes to
    [kickAllConnections] the id of the first service group of the first
    virtual server that the filtered fetch answered with, never the group
    id given by the caller, which goes into the filter of the fetch and
    nowhere else.  When the filter is built, the fetch answered and that
    nested id readable, the reset is issued with it; whatever
    [kickAllConnections] a call issues carries that id; and a call issues
    none when [query_filter] refuses the group id (nothing is sent at
    all), when the fetch fails, or when its answer has no such id. *)
Theorem reset_service_group_resolved_id
    (remote : oracle) (query_filter : value -> result value)
    (loadbal_id group_id : value) (log : list call) :
  let run := reset_service_group remote query_filter loadbal_id group_id
                                 log in
  (forall operation virtual_servers actual_id,
      let fetch := getVirtualServers_by_group operation loadbal_id in
      query_filter group_id = Ok operation ->
      remote log fetch = Ok virtual_servers ->
      get_path first_group_id virtual_servers = Ok actual_id ->
      run = (remote (log ++ [fetch]) (kickAllConnections actual_id),
             log ++ [fetch; kickAllConnections actual_id])) /\
  (forall issued c,
      snd run = log ++ issued ->
      In c issued -> method c = "kickAllConnections" ->
      exists operation virtual_servers actual_id,
        query_filter group_id = Ok operation /\
        remote log (getVirtualServers_by_group operation loadbal_id)
          = Ok virtual_servers /\
        get_path first_group_id virtual_servers = Ok actual_id /\
        c = kickAllConnections actual_id) /\
  (forall e, query_filter group_id = Raise e -> run = (Raise e, log)) /\
  (forall operation,
      let fetch := getVirtualServers_by_group operation loadbal_id in
      query_filter group_id = Ok operation ->
      (forall e, remote log fetch = Raise e ->
                 run = (Raise e, log ++ [fetch])) /\
      (forall virtual_servers e,
          remote log fetch = Ok virtual_servers ->
          get_path first_group_id virtual_servers = Raise e ->
          run = (Raise e, log ++ [fetch]))).
Proof.
  intros run.
  assert (Hrun : run =
    match query_filter group_id with
    | Ok operation =>
        let fetch := getVirtualServers_by_group operation loadbal_id in
        match remote log fetch with
        | Ok vs =>
            match get_path first_group_id vs with
            | Ok actual_id =>
                (remote (log ++ [fetch]) (kickAllConnections actual_id),
                 log ++ [fetch; kickAllConnections actual_id])
            | Raise e => (Raise e, log ++ [fetch])
            end
        | Raise e => (Raise e, log ++ [fetch])
        end
    | Raise e => (Raise e, log)
    end).
  { unfold run, reset_service_group, Remote.bind, invoke, lift.
    cbv beta zeta.
    destruct (query_filter group_id) as [operation|e]; cbv beta iota; auto.
    change (Call lb_svc "getVirtualServers" _ _)
      with (getVirtualServers_by_group operation loadbal_id).
    destruct (remote log _) as [vs|e]; cbv beta iota; auto.
    destruct (get_path first_group_id vs) as [actual_id|e]; cbv beta iota;
      auto.
    change (Call lb_service_group_svc _ _ _)
      with (kickAllConnections actual_id).
    now rewrite <- app_assoc. }
  rewrite Hrun. split; [|split; [|split]].
  - intros operation vs actual_id fetch Hq H Hid. rewrite Hq. cbv zeta.
    fold fetch. now rewrite H, Hid.
  - intros issued c.
    destruct (query_filter group_id) as [operation|e]; cbv zeta.
    + destruct (remote log _) as [vs|e] eqn:Hf; cbn [snd].
      * destruct (get_path first_group_id vs) as [actual_id|e] eqn:Hg;
          cbn [snd]; intros E Hin Hm; apply app_inv_head in E; subst issued.
        -- destruct Hin as [<-|[<-|[]]]; [discriminate Hm|].
           exists operation, vs, actual_id. auto.
        -- destruct Hin as [<-|[]]. discriminate Hm.
      * intros E Hin Hm. apply app_inv_head in E. subst issued.
        destruct Hin as [<-|[]]. discriminate Hm.
    + cbn [snd]. intros E Hin Hm.
      rewrite <- (app_nil_r log) in E at 1. apply app_inv_head in E.
      subst issued. destruct Hin.
  - intros e Hq. now rewrite Hq.
  - intros operation fetch Hq. rewrite Hq. cbv zeta. fold fetch. split.
    + intros e H. now rewrite H.
    + intros vs e H Hid. now rewrite H, Hid.
Qed.

Lemma reset_service_group_resolved_id_witness :
  reset_service_group remote_servers qf (VInt 1) (VInt 50) [] =
    (Ok (VBool true),
     [getVirtualServers_by_group (op (VInt 50)) (VInt 1);
      kickAllConnections (VInt 99)]) /\
  reset_service_group remote_servers qf (VInt 1) VNone [] =
    (Raise TypeError, []) /\
  reset_service_group remote_no_servers qf (VInt 1) (VInt 50) [] =
    (Raise IndexError, [getVirtualServers_by_group (op (VInt 50)) (VInt 1)]).
Proof.
  split; [|split].
  - exact (proj1 (reset_service_group_resolved_id remote_servers qf (VInt 1)
                    (VInt 50) [])
             (op (VInt 50)) virtual_servers (VInt 99)
             eq_refl eq_refl eq_refl).
  - exact (proj1 (proj2 (proj2 (reset_service_group_resolved_id
                                  remote_servers qf (VInt 1) VNone [])))
             TypeError eq_refl).
  - exact (proj2 (proj2 (proj2 (proj2 (reset_service_group_resolved_id
                                         remote_no_servers qf (VInt 1)
                                         (VInt 50) [])))
                    (op (VInt 50)) eq_refl)
             (VList []) IndexError eq_refl eq_refl).
Defined.

(** *** edit_service

    [edit_service] builds its filter from [query_filter service_id]
    before anything is sent.  In what follows [operation] is the operator
    that [query_filter] made of the service id; a service id that it
    refuses ends the call there, with no remote call
    ([edit_service_refused]). *)

(** C2: for every call to [edit_service] with all arguments at their
    sentinels (ip_address_id=0, port=-1, enabled=-1, hc_type=-1,
    weight=-1): whatever is submitted is the fetched tree itself, so every
    field of the matching service node is as fetched; and the tree is
    submitted whenever the first service group of the first virtual server
    lists services that carry an id.  In particular, for arbitrary other
    arguments, ip_address_id=0 leaves the ipAddressId of every service of
    that list as fetched, and -1 does so for port, enabled, weight and
    healthCheckTypeId: these values cannot be stored through this path. *)
Theorem edit_service_sentinels_identity
    (remote : oracle) (query_filter : value -> result value)
    (loadbal_id service_id : value) (log : list call)
    (operation virtual_servers : value) :
  let fetch :=
    getVirtualServers_by_service operation loadbal_id in
  let submit vs := editObject (VDict [("virtualServers", vs)]) loadbal_id in
  query_filter service_id = Ok operation ->
  remote log fetch = Ok virtual_servers ->
  (forall payload,
      snd (edit_service remote query_filter loadbal_id service_id
             (VInt 0) (VInt (-1)) (VInt (-1)) (VInt (-1)) (VInt (-1)) log)
        = log ++ [fetch; submit payload] ->
      payload = virtual_servers) /\
  (forall services,
      get_path first_services virtual_servers = Ok (VList services) ->
      Forall has_id services ->
      edit_service remote query_filter loadbal_id service_id
        (VInt 0) (VInt (-1)) (VInt (-1)) (VInt (-1)) (VInt (-1)) log
      = (remote (log ++ [fetch]) (submit virtual_servers),
         log ++ [fetch; submit virtual_servers])) /\
  (forall ip_address_id port enabled hc_type weight payload i,
      snd (edit_service remote query_filter loadbal_id service_id
             ip_address_id port enabled hc_type weight log)
        = log ++ [fetch; submit payload] ->
      let same q :=
        get_path (first_services ++ Idx i :: q) payload =
        get_path (first_services ++ Idx i :: q) virtual_servers in
      (py_eq ip_address_id (VInt 0) = true -> same [Key "ipAddressId"]) /\
      (py_eq port (VInt (-1)) = true -> same [Key "port"]) /\
      (py_eq enabled (VInt (-1)) = true -> same [Key "enabled"]) /\
      (py_eq weight (VInt (-1)) = true ->
       same [Key "groupReferences"; Idx 0; Key "weight"]) /\
      (py_eq hc_type (VInt (-1)) = true ->
       same [Key "healthChecks"; Idx 0; Key "healthCheckTypeId"])).
Proof.
  intros fetch submit Hop H. split; [|split].
  - intros payload Hs.
    apply (edit_service_submitted _ _ _ _ _ _ _ _ _ _ _ _ _ Hop H) in Hs.
    apply modify_path_id in Hs; auto.
    intros x x'. apply for_each_id. intros s s' Hn.
    assert (E : get_path [] s' = get_path [] s)
      by (eapply edit_service_node_frame; eauto; discriminate).
    now inversion E.
  - intros services Hg Hall.
    rewrite (edit_service_run _ _ _ _ _ _ _ _ _ _ _ _ Hop H).
    rewrite (modify_path_Ok_id _ _ _ _ Hg); [reflexivity|].
    simpl. rewrite mapM_Forall_id; [reflexivity|].
    eapply Forall_impl; [|exact Hall].
    intros s [id Hid]. eapply edit_service_node_sentinels; eauto.
  - intros ip port en hc w payload i Hs same.
    apply (edit_service_submitted _ _ _ _ _ _ _ _ _ _ _ _ _ Hop H) in Hs.
    assert (Hin : forall q,
               (forall s s', edit_service_node service_id ip port en hc w s
                             = Ok s' -> get_path q s' = get_path q s) ->
               same q).
    { intros q Hb. unfold same.
      apply (modify_path_inside first_services _ (Idx i :: q))
        with (v := virtual_servers) (v' := payload) in Hs; auto.
      intros x x' Hfe. now apply (for_each_inside _ q x x' Hb). }
    repeat split; intros Heq; apply Hin; intros s s' Hn;
      (eapply edit_service_node_frame; [exact Hn|..]); intros Hne;
      first [ reflexivity
            | unfold py_ne in Hne; rewrite Heq in Hne; discriminate ].
Qed.

Lemma edit_service_sentinels_identity_witness :
  edit_service remote_servers qf (VInt 1) (VInt 11)
    (VInt 0) (VInt (-1)) (VInt (-1)) (VInt (-1)) (VInt (-1)) [] =
  (Ok (VBool true),
   [getVirtualServers_by_service (op (VInt 11)) (VInt 1);
    editObject (VDict [("virtualServers", virtual_servers)]) (VInt 1)]).
Proof.
  refine (proj1 (proj2 (edit_service_sentinels_identity remote_servers qf
                          (VInt 1) (VInt 11) [] (op (VInt 11))
                          virtual_servers eq_refl eq_refl))
            [service 11 80; service 12 80] eq_refl _).
  constructor; [exists (VInt 11); reflexivity|].
  constructor; [exists (VInt 12); reflexivity|].
  constructor.
Defined.

(** C3: for every call to [edit_service] with a port other than the
    sentinel and every other argument at its sentinel: everything outside
    the services list of the first group is submitted as fetched; in that
    list a service with another id is submitted as fetched, and a service
    with the target id differs from its fetched state in its port field
    only.  On a tree whose first group lists services that carry an id
    the edit is submitted. *)
Theorem edit_service_port_only
    (remote : oracle) (query_filter : value -> result value)
    (loadbal_id service_id port : value) (log : list call)
    (operation virtual_servers : value) :
  let fetch :=
    getVirtualServers_by_service operation loadbal_id in
  let submit vs := editObject (VDict [("virtualServers", vs)]) loadbal_id in
  let run :=
    edit_service remote query_filter loadbal_id service_id
      (VInt 0) port (VInt (-1)) (VInt (-1)) (VInt (-1)) log in
  query_filter service_id = Ok operation ->
  remote log fetch = Ok virtual_servers ->
  py_eq port (VInt (-1)) = false ->
  (forall payload,
      snd run = log ++ [fetch; submit payload] ->
      (forall q, diverge first_services q = true ->
                 get_path q payload = get_path q virtual_servers) /\
      (forall i s,
          get_path (first_services ++ [Idx i]) virtual_servers = Ok s ->
          exists s' id,
            get_path (first_services ++ [Idx i]) payload = Ok s' /\
            getitem_key s "id" = Ok id /\
            (py_eq id service_id = false -> s' = s) /\
            (py_eq id service_id = true ->
             getitem_key s' "port" = Ok port /\
             forall k, k <> "port" ->
                       getitem_key s' k = getitem_key s k))) /\
  (forall services,
      get_path first_services virtual_servers = Ok (VList services) ->
      Forall has_id services ->
      exists payload,
        run = (remote (log ++ [fetch]) (submit payload),
               log ++ [fetch; submit payload])).
Proof.
  intros fetch submit run Hop H Hport. split.
  - intros payload Hs.
    apply (edit_service_submitted _ _ _ _ _ _ _ _ _ _ _ _ _ Hop H) in Hs.
    split.
    + intros q Hq. eapply modify_path_outside; eauto.
    + intros i s Hget.
      destruct (modify_path_get _ _ (for_each_str _) _ _ Hs)
        as (c & c' & Hc & Hfe & Hc').
      rewrite get_path_app, Hc in Hget. simpl in Hget.
      destruct (getitem_idx c i) as [x|] eqn:Hx; [|discriminate].
      simpl in Hget. inversion Hget; subst x.
      destruct (for_each_item _ c c' i s
                  (edit_service_node_str _ _ _ _ _ _) Hfe Hx)
        as (s' & Hs' & Hb).
      destruct (edit_service_node_port _ _ _ _ Hport Hb)
        as (id & Hid & Hother & Hsame).
      exists s', id. rewrite get_path_app, Hc'. simpl. rewrite Hs'.
      split; [reflexivity|]. split; [exact Hid|]. split; [exact Hother|].
      intros Heq. apply Hsame in Heq. now apply setitem_key_get in Heq.
  - intros services Hg Hall. unfold run.
    rewrite (edit_service_run _ _ _ _ _ _ _ _ _ _ _ _ Hop H).
    destruct (mapM_Forall_Ok
                (edit_service_node service_id (VInt 0) port (VInt (-1))
                                   (VInt (-1)) (VInt (-1))) services)
      as [l' Hl'].
    { eapply Forall_impl; [|exact Hall]. intros s [id Hid].
      unfold edit_service_node, py_ne. rewrite Hid, Hport. simpl.
      destruct (getitem_key_dict _ _ _ Hid) as (d & -> & _).
      destruct (py_eq id service_id); simpl; eauto. }
    destruct (modify_path_Ok first_services
                (for_each (edit_service_node service_id (VInt 0) port
                             (VInt (-1)) (VInt (-1)) (VInt (-1))))
                virtual_servers (VList services) (VList l') Hg)
      as [payload Hp].
    { simpl. now rewrite Hl'. }
    rewrite Hp. exists payload. reflexivity.
Qed.

Lemma edit_service_port_only_witness :
  edit_service remote_servers qf (VInt 1) (VInt 11) (VInt 0) (VInt 8443)
               (VInt (-1)) (VInt (-1)) (VInt (-1)) [] =
    (Ok (VBool true),
     [getVirtualServers_by_service (op (VInt 11)) (VInt 1);
      editObject (VDict [("virtualServers", virtual_servers_8443)])
                 (VInt 1)]) /\
  get_path [Idx 0; Key "serviceGroups"; Idx 1] virtual_servers_8443 =
  get_path [Idx 0; Key "serviceGroups"; Idx 1] virtual_servers.
Proof.
  split; [reflexivity|].
  exact (proj1 (proj1 (edit_service_port_only remote_servers qf (VInt 1)
                         (VInt 11) (VInt 8443) [] (op (VInt 11))
                         virtual_servers eq_refl eq_refl eq_refl)
                  virtual_servers_8443 eq_refl)
           [Idx 0; Key "serviceGroups"; Idx 1] eq_refl).
Defined.

(** C9, as stated, fails: the fetch filtered by an id that no service has
    answers with no virtual server, [virtual_servers[0]] raises
    [IndexError], and nothing is submitted. *)
Lemma edit_service_absent_raises :
  ~ edit_absent_submits remote_no_servers qf (VInt 1) (VInt 11) (VInt 0)
      (VInt 8443) (VInt (-1)) (VInt (-1)) (VInt (-1)) [].
Proof.
  intros H. specialize (H (op (VInt 11)) (VList []) eq_refl eq_refl).
  assert (Habs : service_absent (VInt 11) (VList [])).
  { intros i j k s id Hs. destruct i; discriminate Hs. }
  specialize (H Habs). discriminate H.
Qed.

(** C9, amended: for every call to [edit_service] where the fetched tree
    has a first virtual server whose first service group lists services,
    each with an id, none of them the target id, the call stores nothing
    and submits the fetched tree as it is, with no local error.  Where the
    fetch answers with no virtual server at all, [virtual_servers[0]]
    raises [IndexError] and nothing is submitted. *)
Theorem edit_service_absent_in_first_group
    (remote : oracle) (query_filter : value -> result value)
    (loadbal_id service_id ip_address_id port enabled hc_type weight : value)
    (log : list call) (operation virtual_servers : value) :
  let fetch :=
    getVirtualServers_by_service operation loadbal_id in
  let submit := editObject (VDict [("virtualServers", virtual_servers)])
                           loadbal_id in
  let run := edit_service remote query_filter loadbal_id service_id
               ip_address_id port enabled hc_type weight log in
  query_filter service_id = Ok operation ->
  remote log fetch = Ok virtual_servers ->
  (forall services,
      get_path first_services virtual_servers = Ok (VList services) ->
      Forall (fun s => exists id, getitem_key s "id" = Ok id /\
                                  py_eq id service_id = false) services ->
      run = (remote (log ++ [fetch]) submit, log ++ [fetch; submit])) /\
  (virtual_servers = VList [] ->
   run = (Raise IndexError, log ++ [fetch])).
Proof.
  intros fetch submit run Hop H. unfold run.
  rewrite (edit_service_run _ _ _ _ _ _ _ _ _ _ _ _ Hop H). split.
  - intros services Hg Hall.
    rewrite (modify_path_Ok_id _ _ _ _ Hg); [reflexivity|].
    simpl. rewrite mapM_Forall_id; [reflexivity|].
    eapply Forall_impl; [|exact Hall].
    intros s (id & Hid & Hne). eapply edit_service_node_other; eauto.
  - intros ->. reflexivity.
Qed.

Lemma edit_service_absent_in_first_group_witness :
  edit_service remote_servers qf (VInt 1) (VInt 13) (VInt 600) (VInt 8443)
               (VInt 0) (VInt 5) (VInt 2) [] =
  (Ok (VBool true),
   [getVirtualServers_by_service (op (VInt 13)) (VInt 1);
    editObject (VDict [("virtualServers", virtual_servers)]) (VInt 1)]).
Proof.
  refine (proj1 (edit_service_absent_in_first_group remote_servers qf
                   (VInt 1) (VInt 13) (VInt 600) (VInt 8443) (VInt 0)
                   (VInt 5) (VInt 2) [] (op (VInt 13)) virtual_servers
                   eq_refl eq_refl)
            [service 11 80; service 12 80] eq_refl _).
  constructor; [exists (VInt 11); split; reflexivity|].
  constructor; [exists (VInt 12); split; reflexivity|].
  constructor.
Defined.

(** *** The reach of the nested stores *)

(** C10: the nested stores are confined to the first service group.
    - [edit_service] submits as fetched every position of the tree outside
      the services list of the first group of the first virtual server.
    - [add_service] submits as fetched everything outside the virtual
      server list, every virtual server with another id, and, in a virtual
      server with the target id, every position outside the services list
      of its first group, to which the new service is appended.
    - [edit_service_group] submits as fetched everything outside the
      virtual server list, every virtual server with another id, and, in a
      virtual server with the target id, every position other than its
      allocation, its port and the routing type and method of its first
      group.
    A service or group at any other position is submitted as fetched,
    whatever its id. *)
Theorem nested_stores_first_group
    (remote : oracle) (query_filter : value -> result value)
    (loadbal_id : value) (log : list call) :
  (forall service_id ip_address_id port enabled hc_type weight
          operation virtual_servers payload,
      let fetch :=
        getVirtualServers_by_service operation loadbal_id in
      query_filter service_id = Ok operation ->
      remote log fetch = Ok virtual_servers ->
      snd (edit_service remote query_filter loadbal_id service_id
             ip_address_id port enabled hc_type weight log) =
        log ++ [fetch;
                editObject (VDict [("virtualServers", payload)])
                           loadbal_id] ->
      forall q, diverge first_services q = true ->
                get_path q payload = get_path q virtual_servers) /\
  (forall service_group_id ip_address_id port enabled hc_type weight
          load_balancer payload,
      remote log (getObject loadbal_id) = Ok load_balancer ->
      snd (add_service remote loadbal_id service_group_id ip_address_id
             port enabled hc_type weight log) =
        log ++ [getObject loadbal_id; editObject payload loadbal_id] ->
      (forall q, diverge [Key "virtualServers"] q = true ->
                 get_path q payload = get_path q load_balancer) /\
      (forall i q, diverge group0_services q = true ->
          get_path (Key "virtualServers" :: Idx i :: q) payload =
          get_path (Key "virtualServers" :: Idx i :: q) load_balancer) /\
      (forall i v id,
          get_path [Key "virtualServers"; Idx i] load_balancer = Ok v ->
          getitem_key v "id" = Ok id ->
          (py_eq id service_group_id = false ->
           get_path [Key "virtualServers"; Idx i] payload = Ok v) /\
          (py_eq id service_group_id = true ->
           exists services,
             get_path group0_services v = Ok (VList services) /\
             get_path (Key "virtualServers" :: Idx i :: group0_services)
                      payload =
               Ok (VList (services ++
                          [service_template ip_address_id port enabled
                                            hc_type weight]))))) /\
  (forall group_id allocation port routing_type routing_method
          load_balancer payload,
      remote log (getObject loadbal_id) = Ok load_balancer ->
      snd (edit_service_group remote loadbal_id group_id allocation port
             routing_type routing_method log) =
        log ++ [getObject loadbal_id; editObject payload loadbal_id] ->
      (forall q, diverge [Key "virtualServers"] q = true ->
                 get_path q payload = get_path q load_balancer) /\
      (forall i q,
          diverge [Key "allocation"] q = true ->
          diverge [Key "port"] q = true ->
          diverge (group0 ++ [Key "routingTypeId"]) q = true ->
          diverge (group0 ++ [Key "routingMethodId"]) q = true ->
          get_path (Key "virtualServers" :: Idx i :: q) payload =
          get_path (Key "virtualServers" :: Idx i :: q) load_balancer) /\
      (forall i v id,
          get_path [Key "virtualServers"; Idx i] load_balancer = Ok v ->
          getitem_key v "id" = Ok id ->
          py_eq id group_id = false ->
          get_path [Key "virtualServers"; Idx i] payload = Ok v)).
Proof.
  split; [|split].
  - intros sid ip port en hc w operation vs payload fetch Hop H Hs q Hq.
    apply (edit_service_submitted _ _ _ _ _ _ _ _ _ _ _ _ _ Hop H) in Hs.
    eapply modify_path_outside; eauto.
  - intros gid ip port en hc w lbv payload H Hs.
    apply (add_service_submitted _ _ _ _ _ _ _ _ _ _ _ H) in Hs.
    split; [|split].
    + intros q Hq. eapply modify_path_outside; eauto.
    + intros i q Hq.
      eapply (modify_path_inside [Key "virtualServers"] _ (Idx i :: q));
        [|exact Hs].
      intros x x' Hfe. eapply (for_each_inside _ q x x'); [|exact Hfe].
      intros v v' Hn. eapply add_service_node_frame; eauto.
    + intros i v id Hv Hid.
      destruct (modify_path_get _ _ (for_each_str _) _ _ Hs)
        as (c & c' & Hc & Hfe & Hc').
      change [Key "virtualServers"; Idx i]
        with ([Key "virtualServers"] ++ [Idx i]) in *.
      rewrite get_path_app, Hc in Hv. simpl in Hv.
      destruct (getitem_idx c i) as [x|] eqn:Hx; [|discriminate].
      simpl in Hv. inversion Hv; subst x.
      destruct (for_each_item _ c c' i v
                  (add_service_node_str _ _ _ _ _ _) Hfe Hx)
        as (v' & Hv' & Hb).
      unfold add_service_node in Hb. rewrite Hid in Hb. cbn [rbind] in Hb.
      split; intros Heq; rewrite Heq in Hb.
      * inversion Hb; subst v'.
        rewrite get_path_app, Hc'. simpl. now rewrite Hv'.
      * destruct (modify_path_get group0_services _ (py_append_str _)
                    _ _ Hb)
          as (l & l' & Hl & Happ & Hl').
        destruct l as [| | | |services|]; try discriminate Happ.
        simpl in Happ. inversion Happ; subst l'. exists services.
        split; auto.
        change (Key "virtualServers" :: Idx i :: group0_services)
          with ([Key "virtualServers"] ++ Idx i :: group0_services).
        rewrite get_path_app, Hc'. cbn [rbind get_path getitem].
        rewrite Hv'. exact Hl'.
  - intros gid alloc port rt rm lbv payload H Hs.
    apply (edit_service_group_submitted _ _ _ _ _ _ _ _ _ _ H) in Hs.
    split; [|split].
    + intros q Hq. eapply modify_path_outside; eauto.
    + intros i q Ha Hp Hrt Hrm.
      eapply (modify_path_inside [Key "virtualServers"] _ (Idx i :: q));
        [|exact Hs].
      intros x x' Hfe. eapply (for_each_inside _ q x x'); [|exact Hfe].
      intros v v' Hn. eapply edit_service_group_node_frame; eauto.
    + intros i v id Hv Hid Hne.
      destruct (modify_path_get _ _ (for_each_str _) _ _ Hs)
        as (c & c' & Hc & Hfe & Hc').
      change [Key "virtualServers"; Idx i]
        with ([Key "virtualServers"] ++ [Idx i]) in *.
      rewrite get_path_app, Hc in Hv. simpl in Hv.
      destruct (getitem_idx c i) as [x|] eqn:Hx; [|discriminate].
      simpl in Hv. inversion Hv; subst x.
      destruct (for_each_item (edit_service_group_node gid alloc port rt rm)
                  c c' i v) as (v' & Hv' & Hb); auto.
      { intros str. unfold edit_service_group_node. simpl. eauto. }
      unfold edit_service_group_node in Hb. rewrite Hid in Hb.
      simpl in Hb. rewrite Hne in Hb. inversion Hb; subst v'.
      rewrite get_path_app, Hc'. simpl. now rewrite Hv'.
Qed.

Lemma nested_stores_first_group_witness :
  get_path [Idx 0; Key "serviceGroups"; Idx 1; Key "services"; Idx 0]
           virtual_servers_8443 = Ok (service 11 8080) /\
  get_path [Key "virtualServers"; Idx 1; Key "serviceGroups"; Idx 1]
           load_balancer_added = Ok (group 96 []) /\
  get_path [Key "virtualServers"; Idx 1; Key "serviceGroups"; Idx 1]
           load_balancer_rerouted = Ok (group 96 []).
Proof.
  destruct (nested_stores_first_group remote_servers qf (VInt 1) [])
    as (Hedit & _).
  destruct (nested_stores_first_group remote_lb qf (VInt 1) [])
    as (_ & Hadd & Hgroup).
  split; [|split].
  - exact (Hedit (VInt 11) (VInt 0) (VInt 8443) (VInt (-1)) (VInt (-1))
             (VInt (-1)) (op (VInt 11)) virtual_servers
             virtual_servers_8443 eq_refl eq_refl
             eq_refl
             [Idx 0; Key "serviceGroups"; Idx 1; Key "services"; Idx 0]
             eq_refl).
  - exact (proj1 (proj2 (Hadd (VInt 51) (VInt 600) (VInt 80) (VInt 1)
                           (VInt 21) (VInt 1) load_balancer
                           load_balancer_added eq_refl eq_refl))
             1 [Key "serviceGroups"; Idx 1] eq_refl).
  - exact (proj1 (proj2 (Hgroup (VInt 51) (VInt (-1)) (VInt 0) (VInt 3)
                           (VInt 0) load_balancer load_balancer_rerouted
                           eq_refl eq_refl))
             1 [Key "serviceGroups"; Idx 1] eq_refl eq_refl eq_refl
             eq_refl).
Defined.

End Properties.

(* ------------------------------------------------------------------ *)
(** ** Further facts about the builtins and the methods                *)
(* ------------------------------------------------------------------ *)
Section MoreFacts.

Import Calls.

Variable remote : oracle.
Variable query_filter : value -> result value.

Lemma setitem_key_same v k x :
  getitem_key v k = Ok x -> setitem_key v k x = Ok v.
Proof.
  intros H. destruct (getitem_key_dict _ _ _ H) as (d & -> & Hd).
  simpl. now rewrite (dict_set_get_id _ _ _ Hd).
Qed.

Lemma modify_path_Raise p f v e :
  get_path p v = Raise e -> modify_path p f v = Raise e.
Proof.
  revert v; induction p as [|s p IH]; intros v H; simpl in *.
  - discriminate.
  - destruct (getitem v s) as [c|e']; simpl in *; [|exact H].
    now rewrite (IH _ H).
Qed.

Lemma mapM_Forall2 {A B} (f : A -> result B) l l' :
  mapM f l = Ok l' -> Forall2 (fun x x' => f x = Ok x') l l'.
Proof.
  revert l'; induction l as [|a l IH]; intros l' H; simpl in H.
  - inversion H. constructor.
  - apply rbind_Ok in H as (y & Hy & H).
    apply rbind_Ok in H as (ys & Hys & H). inversion H; subst.
    constructor; auto.
Qed.

(** The loop stops at the first item on which the body raises. *)
Lemma mapM_raise_at {A B} (f : A -> result B) pre v post e :
  Forall (fun x => exists y, f x = Ok y) pre -> f v = Raise e ->
  mapM f (pre ++ v :: post) = Raise e.
Proof.
  intros Hpre Hv. induction Hpre as [|a pre [y Ha] _ IH]; simpl.
  - now rewrite Hv.
  - now rewrite Ha, IH.
Qed.

Lemma get_path_key k v : get_path [Key k] v = getitem_key v k.
Proof. simpl. now destruct (getitem_key v k). Qed.

(** A store through [p] reads back at [p]. *)
Lemma modify_path_set_get p k x v v' :
  modify_path p (fun r => setitem_key r k x) v = Ok v' ->
  get_path (p ++ [Key k]) v' = Ok x.
Proof.
  intros H.
  assert (Hstr : forall s x', setitem_key (VStr s) k x = Ok x' -> x' = VStr s)
    by discriminate.
  destruct (modify_path_get p _ Hstr _ _ H) as (c & c' & _ & Hset & Hc').
  rewrite get_path_app, Hc'. simpl.
  now rewrite (proj1 (setitem_key_get _ _ _ _ Hset)).
Qed.

(** A loop whose body does nothing on what it has produced does nothing
    on the outcome of the loop. *)
Lemma for_each_idem body c c' :
  (forall x x', body x = Ok x' -> body x' = Ok x') ->
  for_each body c = Ok c' -> for_each body c' = Ok c'.
Proof.
  intros Hb H. destruct c; simpl in H; try discriminate.
  - assert (E := H). apply rbind_Ok in E as (x & _ & E).
    inversion E; subst c'. exact H.
  - apply rbind_Ok in H as (l' & Hl & H). inversion H; subst c'. simpl.
    rewrite mapM_Forall_id; auto.
    apply mapM_Forall2 in Hl. induction Hl; constructor; eauto.
  - assert (E := H). apply rbind_Ok in E as (x & _ & E).
    inversion E; subst c'. exact H.
Qed.

Lemma modify_path_body_Raise p f v c e :
  get_path p v = Ok c -> f c = Raise e -> modify_path p f v = Raise e.
Proof.
  revert v; induction p as [|s p IH]; intros v Hg Hf; simpl in *.
  - inversion Hg; subst; auto.
  - destruct (getitem v s) as [c0|]; simpl in *; [|discriminate].
    now rewrite (IH _ Hg Hf).
Qed.

(** *** Loops over a list inside a fetched object *)

(** An item of the list, before and after the loop. *)
Lemma loop_item p body v v' i x :
  (forall str, exists e, body (VStr str) = Raise e) ->
  modify_path p (for_each body) v = Ok v' ->
  get_path (p ++ [Idx i]) v = Ok x ->
  exists x', get_path (p ++ [Idx i]) v' = Ok x' /\ body x = Ok x'.
Proof.
  intros Hstr Hm Hx.
  destruct (modify_path_get _ _ (for_each_str _) _ _ Hm)
    as (c & c' & Hc & Hfe & Hc').
  rewrite get_path_app, Hc in Hx. simpl in Hx.
  destruct (getitem_idx c i) as [y|] eqn:Hy; [|discriminate].
  simpl in Hx. inversion Hx; subst y.
  destruct (for_each_item _ c c' i x Hstr Hfe Hy) as (x' & Hx' & Hb).
  exists x'. rewrite get_path_app, Hc'. simpl. now rewrite Hx'.
Qed.

(** The whole list, before and after the loop. *)
Lemma loop_list p body v v' l :
  modify_path p (for_each body) v = Ok v' ->
  get_path p v = Ok (VList l) ->
  exists l', get_path p v' = Ok (VList l') /\
             Forall2 (fun x x' => body x = Ok x') l l'.
Proof.
  intros Hm Hl.
  destruct (modify_path_get _ _ (for_each_str _) _ _ Hm)
    as (c & c' & Hc & Hfe & Hc').
  rewrite Hl in Hc. inversion Hc; subst c.
  simpl in Hfe. apply rbind_Ok in Hfe as (l' & Hmap & Hfe).
  inversion Hfe; subst c'. exists l'. split; auto.
  now apply mapM_Forall2.
Qed.

(** A loop whose body leaves every item alone leaves the object alone. *)
Lemma loop_noop p body v l :
  get_path p v = Ok (VList l) ->
  Forall (fun x => body x = Ok x) l ->
  modify_path p (for_each body) v = Ok v.
Proof.
  intros Hl Hall. apply (modify_path_Ok_id _ _ _ _ Hl).
  simpl. now rewrite mapM_Forall_id.
Qed.

(** A loop whose body raises on an item raises, whatever comes after. *)
Lemma loop_raise p body v pre x post e :
  get_path p v = Ok (VList (pre ++ x :: post)) ->
  Forall (fun y => exists y', body y = Ok y') pre ->
  body x = Raise e ->
  modify_path p (for_each body) v = Raise e.
Proof.
  intros Hl Hpre Hx. apply (modify_path_body_Raise _ _ _ _ _ Hl).
  simpl. now rewrite (mapM_raise_at _ _ _ _ _ Hpre Hx).
Qed.

(** *** edit_service *)

Lemma edit_service_node_keeps_id sid ip port en hc w s s' :
  edit_service_node sid ip port en hc w s = Ok s' ->
  getitem_key s' "id" = getitem_key s "id".
Proof.
  intros H. rewrite <- !get_path_key.
  eapply edit_service_node_frame; eauto.
Qed.

(** What the body has stored in a service with the target id. *)
Lemma edit_service_node_stores sid ip port en hc w s s' id :
  edit_service_node sid ip port en hc w s = Ok s' ->
  getitem_key s "id" = Ok id -> py_eq id sid = true ->
  (py_eq en (VInt (-1)) = false -> get_path [Key "enabled"] s' = Ok en) /\
  (py_eq port (VInt (-1)) = false -> get_path [Key "port"] s' = Ok port) /\
  (py_eq w (VInt (-1)) = false ->
   get_path [Key "groupReferences"; Idx 0; Key "weight"] s' = Ok w) /\
  (py_eq hc (VInt (-1)) = false ->
   get_path [Key "healthChecks"; Idx 0; Key "healthCheckTypeId"] s'
     = Ok hc) /\
  (py_eq ip (VInt 0) = false -> get_path [Key "ipAddressId"] s' = Ok ip).
Proof.
  unfold edit_service_node, py_ne. intros H Hid Hm.
  rewrite Hid in H. cbn [rbind] in H. rewrite Hm in H.
  apply rbind_Ok in H as (s1 & H1 & H).
  apply rbind_Ok in H as (s2 & H2 & H).
  apply rbind_Ok in H as (s3 & H3 & H).
  apply rbind_Ok in H as (s4 & H4 & H).
  assert (F2 : forall q, diverge [Key "port"] q = true ->
                         get_path q s2 = get_path q s1).
  { intros q Hq. destruct (negb (py_eq port (VInt (-1))));
      [|now inversion H2]. eapply setitem_key_frame; eauto. }
  assert (F3 : forall q,
             diverge [Key "groupReferences"; Idx 0; Key "weight"] q = true ->
             get_path q s3 = get_path q s2).
  { intros q Hq. destruct (negb (py_eq w (VInt (-1))));
      [|now inversion H3].
    eapply (modify_path_frame [Key "groupReferences"; Idx 0]
              [Key "weight"]); eauto.
    intros x x' q'. apply setitem_key_frame. }
  assert (F4 : forall q,
             diverge [Key "healthChecks"; Idx 0; Key "healthCheckTypeId"] q
               = true ->
             get_path q s4 = get_path q s3).
  { intros q Hq. destruct (negb (py_eq hc (VInt (-1))));
      [|now inversion H4].
    eapply (modify_path_frame [Key "healthChecks"; Idx 0]
              [Key "healthCheckTypeId"]); eauto.
    intros x x' q'. apply setitem_key_frame. }
  assert (F5 : forall q, diverge [Key "ipAddressId"] q = true ->
                         get_path q s' = get_path q s4).
  { intros q Hq. destruct (negb (py_eq ip (VInt 0)));
      [|now inversion H]. eapply setitem_key_frame; eauto. }
  repeat split; intros Hne; rewrite Hne in *; cbn [negb] in *.
  - rewrite F5, F4, F3, F2 by reflexivity.
    rewrite get_path_key. now apply setitem_key_get in H1.
  - rewrite F5, F4, F3 by reflexivity.
    rewrite get_path_key. now apply setitem_key_get in H2.
  - rewrite F5, F4 by reflexivity.
    exact (modify_path_set_get [Key "groupReferences"; Idx 0] _ _ _ _ H3).
  - rewrite F5 by reflexivity.
    exact (modify_path_set_get [Key "healthChecks"; Idx 0] _ _ _ _ H4).
  - rewrite get_path_key. now apply setitem_key_get in H.
Qed.

(** A weight cannot be stored in a service without a first group
    reference, nor a health check type in one without a first health
    check: the body raises, whatever else it was to store. *)
Lemma edit_service_node_no_reference sid ip port en hc w s e :
  Shape.same_id sid s ->
  py_eq w (VInt (-1)) = false ->
  get_path [Key "groupReferences"; Idx 0] s = Raise e ->
  edit_service_node sid ip port en hc w s = Raise e.
Proof.
  intros (id & Hid & Hm) Hw Hg. unfold edit_service_node, py_ne.
  rewrite Hid. cbn [rbind]. rewrite Hm, Hw. cbn [negb].
  destruct (getitem_key_dict _ _ _ Hid) as (d & -> & _).
  set (s1 := if negb (py_eq en (VInt (-1)))
             then setitem_key (VDict d) "enabled" en else Ok (VDict d)).
  assert (H1 : exists d1, s1 = Ok (VDict d1) /\
             get_path [Key "groupReferences"; Idx 0] (VDict d1) = Raise e).
  { unfold s1. destruct (negb (py_eq en (VInt (-1)))).
    - eexists. split; [reflexivity|]. rewrite <- Hg.
      now apply (setitem_key_frame (VDict d) "enabled" en).
    - eauto. }
  destruct H1 as (d1 & -> & Hg1). cbn [rbind].
  set (s2 := if negb (py_eq port (VInt (-1)))
             then setitem_key (VDict d1) "port" port else Ok (VDict d1)).
  assert (H2 : exists d2, s2 = Ok (VDict d2) /\
             get_path [Key "groupReferences"; Idx 0] (VDict d2) = Raise e).
  { unfold s2. destruct (negb (py_eq port (VInt (-1)))).
    - eexists. split; [reflexivity|]. rewrite <- Hg1.
      now apply (setitem_key_frame (VDict d1) "port" port).
    - eauto. }
  destruct H2 as (d2 & -> & Hg2). cbn [rbind].
  now rewrite (modify_path_Raise _ _ _ _ Hg2).
Qed.

Lemma edit_service_node_no_health_check sid ip port en hc s e :
  Shape.same_id sid s ->
  py_eq hc (VInt (-1)) = false ->
  get_path [Key "healthChecks"; Idx 0] s = Raise e ->
  edit_service_node sid ip port en hc (VInt (-1)) s = Raise e.
Proof.
  intros (id & Hid & Hm) Hhc Hg. unfold edit_service_node, py_ne.
  rewrite Hid. cbn [rbind]. rewrite Hm, Hhc. cbn [negb].
  destruct (getitem_key_dict _ _ _ Hid) as (d & -> & _).
  set (s1 := if negb (py_eq en (VInt (-1)))
             then setitem_key (VDict d) "enabled" en else Ok (VDict d)).
  assert (H1 : exists d1, s1 = Ok (VDict d1) /\
             get_path [Key "healthChecks"; Idx 0] (VDict d1) = Raise e).
  { unfold s1. destruct (negb (py_eq en (VInt (-1)))).
    - eexists. split; [reflexivity|]. rewrite <- Hg.
      now apply (setitem_key_frame (VDict d) "enabled" en).
    - eauto. }
  destruct H1 as (d1 & -> & Hg1). cbn [rbind].
  set (s2 := if negb (py_eq port (VInt (-1)))
             then setitem_key (VDict d1) "port" port else Ok (VDict d1)).
  assert (H2 : exists d2, s2 = Ok (VDict d2) /\
             get_path [Key "healthChecks"; Idx 0] (VDict d2) = Raise e).
  { unfold s2. destruct (negb (py_eq port (VInt (-1)))).
    - eexists. split; [reflexivity|]. rewrite <- Hg1.
      now apply (setitem_key_frame (VDict d1) "port" port).
    - eauto. }
  destruct H2 as (d2 & -> & Hg2).
  change (py_eq (VInt (-1)) (VInt (-1))) with true. cbn [rbind negb].
  now rewrite (modify_path_Raise _ _ _ _ Hg2).
Qed.

(** Running the body again on what it produced changes nothing. *)
Lemma edit_service_node_idem sid ip port en hc w s s' :
  edit_service_node sid ip port en hc w s = Ok s' ->
  edit_service_node sid ip port en hc w s' = Ok s'.
Proof.
  intros H.
  assert (Hid := edit_service_node_keeps_id _ _ _ _ _ _ _ _ H).
  destruct (getitem_key s "id") as [id|e] eqn:Es;
    [|unfold edit_service_node in H; rewrite Es in H; discriminate].
  destruct (py_eq id sid) eqn:Hm.
  - destruct (edit_service_node_stores _ _ _ _ _ _ _ _ _ H Es Hm)
      as (Sen & Sport & Sw & Shc & Sip).
    unfold edit_service_node, py_ne. rewrite Hid. cbn [rbind]. rewrite Hm.
    assert (Ken : (if negb (py_eq en (VInt (-1)))
                   then setitem_key s' "enabled" en else Ok s') = Ok s').
    { destruct (py_eq en (VInt (-1))); cbn [negb]; auto.
      apply setitem_key_same. rewrite <- get_path_key. auto. }
    rewrite Ken. cbn [rbind].
    assert (Kport : (if negb (py_eq port (VInt (-1)))
                     then setitem_key s' "port" port else Ok s') = Ok s').
    { destruct (py_eq port (VInt (-1))); cbn [negb]; auto.
      apply setitem_key_same. rewrite <- get_path_key. auto. }
    rewrite Kport. cbn [rbind].
    assert (Kw : (if negb (py_eq w (VInt (-1)))
                  then modify_path [Key "groupReferences"; Idx 0]
                         (fun r => setitem_key r "weight" w) s'
                  else Ok s') = Ok s').
    { destruct (py_eq w (VInt (-1))); cbn [negb]; auto.
      specialize (Sw eq_refl).
      change [Key "groupReferences"; Idx 0; Key "weight"]
        with ([Key "groupReferences"; Idx 0] ++ [Key "weight"]) in Sw.
      rewrite get_path_app in Sw. apply rbind_Ok in Sw as (c & Hc & Hk).
      rewrite get_path_key in Hk.
      apply (modify_path_Ok_id _ _ _ _ Hc). now apply setitem_key_same. }
    rewrite Kw. cbn [rbind].
    assert (Khc : (if negb (py_eq hc (VInt (-1)))
                   then modify_path [Key "healthChecks"; Idx 0]
                          (fun h => setitem_key h "healthCheckTypeId" hc) s'
                   else Ok s') = Ok s').
    { destruct (py_eq hc (VInt (-1))); cbn [negb]; auto.
      specialize (Shc eq_refl).
      change [Key "healthChecks"; Idx 0; Key "healthCheckTypeId"]
        with ([Key "healthChecks"; Idx 0] ++ [Key "healthCheckTypeId"])
        in Shc.
      rewrite get_path_app in Shc. apply rbind_Ok in Shc as (c & Hc & Hk).
      rewrite get_path_key in Hk.
      apply (modify_path_Ok_id _ _ _ _ Hc). now apply setitem_key_same. }
    rewrite Khc. cbn [rbind].
    destruct (py_eq ip (VInt 0)); cbn [negb]; auto.
    apply setitem_key_same. rewrite <- get_path_key. auto.
  - rewrite (edit_service_node_other _ _ _ _ _ _ _ _ Es Hm) in H.
    inversion H; subst s'.
    now apply edit_service_node_other with (id := id).
Qed.

(** *** add_service, add_service_group, edit_service_group *)


Lemma add_service_node_other gid ip port en hc w v :
  Shape.other_id gid v -> add_service_node gid ip port en hc w v = Ok v.
Proof.
  intros (id & Hid & Hne). unfold add_service_node. rewrite Hid.
  cbn [rbind]. now rewrite Hne.
Qed.

Lemma add_service_node_keeps_id gid ip port en hc w v v' :
  add_service_node gid ip port en hc w v = Ok v' ->
  getitem_key v' "id" = getitem_key v "id".
Proof.
  intros H. rewrite <- !get_path_key.
  eapply add_service_node_frame; eauto.
Qed.

Lemma edit_service_group_node_other gid alloc port rt rm v :
  Shape.other_id gid v ->
  edit_service_group_node gid alloc port rt rm v = Ok v.
Proof.
  intros (id & Hid & Hne). unfold edit_service_group_node. rewrite Hid.
  cbn [rbind]. now rewrite Hne.
Qed.

Lemma edit_service_group_node_str gid alloc port rt rm str :
  exists e, edit_service_group_node gid alloc port rt rm (VStr str) = Raise e.
Proof. unfold edit_service_group_node. simpl. eauto. Qed.

Lemma edit_service_group_node_keeps_id gid alloc port rt rm v v' :
  edit_service_group_node gid alloc port rt rm v = Ok v' ->
  getitem_key v' "id" = getitem_key v "id".
Proof.
  intros H. rewrite <- !get_path_key.
  eapply edit_service_group_node_frame; eauto.
Qed.

(** With every argument at its sentinel the body stores nothing. *)
Lemma edit_service_group_node_sentinels gid v v' :
  edit_service_group_node gid (VInt (-1)) (VInt 0) (VInt 0) (VInt 0) v
    = Ok v' -> v' = v.
Proof.
  unfold edit_service_group_node. intros H.
  apply rbind_Ok in H as (id & _ & H).
  destruct (py_eq id gid); [|now inversion H].
  apply rbind_Ok in H as (g & _ & H). simpl in H. now inversion H.
Qed.

Lemma edit_service_group_node_sentinels_Ok gid v id :
  getitem_key v "id" = Ok id ->
  (py_eq id gid = true -> exists g, get_path group0 v = Ok g) ->
  edit_service_group_node gid (VInt (-1)) (VInt 0) (VInt 0) (VInt 0) v = Ok v.
Proof.
  intros Hid Hg. unfold edit_service_group_node. rewrite Hid. cbn [rbind].
  destruct (py_eq id gid); auto.
  destruct (Hg eq_refl) as [g ->]. reflexivity.
Qed.

(** Each store of the body is confined to its own field; a store that
    the sentinel switches off confines nothing. *)
Lemma edit_service_group_node_frame_sentinel gid alloc port rt rm v v' q :
  edit_service_group_node gid alloc port rt rm v = Ok v' ->
  (py_ne alloc (VInt (-1)) = true -> diverge [Key "allocation"] q = true) ->
  (py_ne port (VInt 0) = true -> diverge [Key "port"] q = true) ->
  (py_ne rt (VInt 0) = true ->
   diverge (group0 ++ [Key "routingTypeId"]) q = true) ->
  (py_ne rm (VInt 0) = true ->
   diverge (group0 ++ [Key "routingMethodId"]) q = true) ->
  get_path q v' = get_path q v.
Proof.
  unfold edit_service_group_node. intros H Ha Hp Hrt Hrm.
  apply rbind_Ok in H as (id & _ & H).
  destruct (py_eq id gid); [|now inversion H].
  apply rbind_Ok in H as (g & _ & H).
  apply rbind_Ok in H as (v1 & H1 & H).
  apply rbind_Ok in H as (v2 & H2 & H).
  apply rbind_Ok in H as (v3 & H3 & H).
  transitivity (get_path q v3).
  { destruct (py_ne rm (VInt 0)); [|now inversion H].
    eapply (modify_path_frame group0 [Key "routingMethodId"]); eauto.
    intros x x' q'. apply setitem_key_frame. }
  transitivity (get_path q v2).
  { destruct (py_ne rt (VInt 0)); [|now inversion H3].
    eapply (modify_path_frame group0 [Key "routingTypeId"]); eauto.
    intros x x' q'. apply setitem_key_frame. }
  transitivity (get_path q v1).
  { destruct (py_ne port (VInt 0)); [|now inversion H2].
    eapply setitem_key_frame; eauto. }
  destruct (py_ne alloc (VInt (-1))); [|now inversion H1].
  eapply setitem_key_frame; eauto.
Qed.

(** The subscript [virtual_server['serviceGroups'][0]] is evaluated
    before the sentinels are looked at. *)
Lemma edit_service_group_node_eager gid alloc port rt rm v e :
  Shape.same_id gid v -> get_path group0 v = Raise e ->
  edit_service_group_node gid alloc port rt rm v = Raise e.
Proof.
  intros (id & Hid & Hm) Hg. unfold edit_service_group_node.
  rewrite Hid. cbn [rbind]. rewrite Hm, Hg. reflexivity.
Qed.

Lemma add_service_node_eager gid ip port en hc w v e :
  Shape.same_id gid v -> get_path group0_services v = Raise e ->
  add_service_node gid ip port en hc w v = Raise e.
Proof.
  intros (id & Hid & Hm) Hg. unfold add_service_node.
  rewrite Hid. cbn [rbind]. rewrite Hm.
  now apply modify_path_Raise.
Qed.

(** What the body has stored in a virtual server with the target id. *)
Lemma edit_service_group_node_stores gid alloc port rt rm v v' :
  edit_service_group_node gid alloc port rt rm v = Ok v' ->
  Shape.same_id gid v ->
  (py_eq alloc (VInt (-1)) = false ->
   get_path [Key "allocation"] v' = Ok alloc) /\
  (py_eq port (VInt 0) = false -> get_path [Key "port"] v' = Ok port) /\
  (py_eq rt (VInt 0) = false ->
   get_path (group0 ++ [Key "routingTypeId"]) v' = Ok rt) /\
  (py_eq rm (VInt 0) = false ->
   get_path (group0 ++ [Key "routingMethodId"]) v' = Ok rm).
Proof.
  unfold edit_service_group_node, py_ne. intros H (id & Hid & Hm).
  rewrite Hid in H. cbn [rbind] in H. rewrite Hm in H.
  apply rbind_Ok in H as (g & _ & H).
  apply rbind_Ok in H as (v1 & H1 & H).
  apply rbind_Ok in H as (v2 & H2 & H).
  apply rbind_Ok in H as (v3 & H3 & H).
  assert (F2 : forall q, diverge [Key "port"] q = true ->
                         get_path q v2 = get_path q v1).
  { intros q Hq. destruct (negb (py_eq port (VInt 0)));
      [|now inversion H2]. eapply setitem_key_frame; eauto. }
  assert (F3 : forall q,
             diverge (group0 ++ [Key "routingTypeId"]) q = true ->
             get_path q v3 = get_path q v2).
  { intros q Hq. destruct (negb (py_eq rt (VInt 0)));
      [|now inversion H3].
    eapply (modify_path_frame group0 [Key "routingTypeId"]); eauto.
    intros x x' q'. apply setitem_key_frame. }
  assert (F4 : forall q,
             diverge (group0 ++ [Key "routingMethodId"]) q = true ->
             get_path q v' = get_path q v3).
  { intros q Hq. destruct (negb (py_eq rm (VInt 0)));
      [|now inversion H].
    eapply (modify_path_frame group0 [Key "routingMethodId"]); eauto.
    intros x x' q'. apply setitem_key_frame. }
  repeat split; intros Hne; rewrite Hne in *; cbn [negb] in *.
  - rewrite F4, F3, F2 by reflexivity.
    rewrite get_path_key. now apply setitem_key_get in H1.
  - rewrite F4, F3 by reflexivity.
    rewrite get_path_key. now apply setitem_key_get in H2.
  - rewrite F4 by reflexivity.
    exact (modify_path_set_get group0 _ _ _ _ H3).
  - exact (modify_path_set_get group0 _ _ _ _ H).
Qed.

Lemma get_location_run datacenter log :
  get_location remote datacenter log =
  (dcenters <~ remote log getDataCenters;
   items <~ py_iter dcenters; find_location datacenter items,
   log ++ [getDataCenters]).
Proof.
  unfold get_location, Remote.bind, invoke, lift.
  change (Call location_svc _ _ _) with getDataCenters.
  now destruct (remote log getDataCenters).
Qed.

Lemma add_local_lb_run price_item_id datacenter log :
  add_local_lb remote price_item_id datacenter log =
  match fst (get_location remote datacenter log) with
  | Ok location =>
      (remote (log ++ [getDataCenters])
              (placeOrder (product_order price_item_id location)),
       log ++ [getDataCenters;
               placeOrder (product_order price_item_id location)])
  | Raise e => (Raise e, log ++ [getDataCenters])
  end.
Proof.
  unfold add_local_lb, Remote.bind. rewrite get_location_run. cbn [fst].
  destruct (rbind _ _) as [location|e]; auto.
  unfold invoke.
  change (Call product_order_svc _ _ _)
    with (placeOrder (product_order price_item_id location)).
  now rewrite <- app_assoc.
Qed.

Lemma find_location_raise name pre r post e :
  Forall (Stated.other_name name) pre ->
  getitem_key r "name" = Raise e ->
  find_location (VStr name) (pre ++ r :: post) = Raise e.
Proof.
  intros Hpre Hr. induction Hpre as [|d pre (n & Hn & Hne) _ IH]; simpl.
  - now rewrite Hr.
  - rewrite Hn. simpl. now rewrite Hne.
Qed.

Lemma find_location_no_id name pre r post e :
  Forall (Stated.other_name name) pre ->
  getitem_key r "name" = Ok (VStr name) ->
  getitem_key r "id" = Raise e ->
  find_location (VStr name) (pre ++ r :: post) = Raise e.
Proof.
  intros Hpre Hn Hr. induction Hpre as [|d pre (n & Hn' & Hne) _ IH]; simpl.
  - rewrite Hn. simpl. now rewrite String.eqb_refl.
  - rewrite Hn'. simpl. now rewrite Hne.
Qed.

End MoreFacts.

(* ------------------------------------------------------------------ *)
(** ** Further properties of the manager                               *)
(* ------------------------------------------------------------------ *)
Section MoreProperties.

Import Calls Sample Stated Shape.

(** *** get_lb_pkgs *)

(** X1: [get_lb_pkgs] hands back a catalog only when the catalog is empty.
    On the empty list it returns the empty list; on every non-empty list
    the test of the first entry raises after the one remote call, with
    [AttributeError] when that entry has a description; and whatever the
    method returns is an empty list, dict or str. *)
Theorem get_lb_pkgs_only_empty
    (remote : oracle) (query_filter : value -> result value)
    (log : list call) :
  let run := get_lb_pkgs remote query_filter log in
  (forall operation,
      let lookup := getItems operation in
      query_filter (VStr "*Load Balancer*") = Ok operation ->
      (remote log lookup = Ok (VList []) ->
       run = (Ok (VList []), log ++ [lookup])) /\
      (forall package packages,
          remote log lookup = Ok (VList (package :: packages)) ->
          exists e, run = (Raise e, log ++ [lookup]) /\
                    (forall d, getitem_key package "description" = Ok d ->
                               e = AttributeError))) /\
  (forall packages,
      fst run = Ok packages ->
      packages = VList [] \/ packages = VDict [] \/ packages = VStr "").
Proof.
  intros run.
  assert (Hrun : run =
    match query_filter (VStr "*Load Balancer*") with
    | Ok operation =>
        (packages <~ remote log (getItems operation);
         filter_packages packages, log ++ [getItems operation])
    | Raise e => (Raise e, log)
    end).
  { unfold run, get_lb_pkgs, Remote.bind, invoke, lift. cbv zeta.
    destruct (query_filter _) as [operation|e]; cbv beta iota; auto.
    change (Call prod_pkg _ _ _) with (getItems operation).
    now destruct (remote log _). }
  rewrite Hrun. split.
  - intros operation lookup Hop. rewrite Hop. fold lookup. split.
    + intros H. now rewrite H.
    + intros package packages H. rewrite H. simpl.
      unfold is_global at 1.
      destruct (getitem_key package "description") as [d|e] eqn:Hd; simpl.
      * assert (Ha : hasattr d "startsWith" = false)
          by (destruct d; reflexivity).
        unfold call_method. rewrite Ha. simpl. eauto.
      * exists e. split; auto. discriminate.
  - intros packages.
    destruct (query_filter _) as [operation|e]; cbn [fst]; [|discriminate].
    destruct (remote log _) as [v|e]; simpl; [|discriminate].
    destruct v as [| | |s|l|d]; simpl; try discriminate.
    + destruct s as [|a s]; simpl.
      * intros H; inversion H; auto.
      * discriminate.
    + destruct l as [|p l]; simpl.
      * intros H; inversion H; auto.
      * destruct (is_global_raises p) as [e ->]. discriminate.
    + destruct d as [|[k x] d]; simpl.
      * intros H; inversion H; auto.
      * discriminate.
Qed.

Lemma get_lb_pkgs_only_empty_witness :
  get_lb_pkgs remote_catalog qf [getDataCenters] =
    (Raise AttributeError,
     [getDataCenters; getItems (op (VStr "*Load Balancer*"))]).
Proof.
  destruct (proj2 (proj1 (get_lb_pkgs_only_empty remote_catalog qf
                            [getDataCenters])
                     (op (VStr "*Load Balancer*")) eq_refl)
              _ _ eq_refl)
    as (e & Hrun & He).
  rewrite (He _ eq_refl) in Hrun. exact Hrun.
Defined.

(** *** get_location *)

(** X2: the fallback of [get_location] covers the unmatched name only.
    A failed remote lookup is raised as it is; a record without a name
    ahead of any match raises [KeyError] or [TypeError] even when a later
    record matches; and a record with the name but without an id raises
    instead of falling back.  One remote call is issued in each case. *)
Theorem get_location_raises
    (remote : oracle) (name : string) (log : list call) :
  let run := get_location remote (VStr name) log in
  (forall e, remote log getDataCenters = Raise e ->
             run = (Raise e, log ++ [getDataCenters])) /\
  (forall pre r post e,
      remote log getDataCenters = Ok (VList (pre ++ r :: post)) ->
      Forall (other_name name) pre ->
      getitem_key r "name" = Raise e ->
      run = (Raise e, log ++ [getDataCenters])) /\
  (forall pre r post e,
      remote log getDataCenters = Ok (VList (pre ++ r :: post)) ->
      Forall (other_name name) pre ->
      getitem_key r "name" = Ok (VStr name) ->
      getitem_key r "id" = Raise e ->
      run = (Raise e, log ++ [getDataCenters])).
Proof.
  intros run. unfold run. rewrite get_location_run. split; [|split].
  - intros e H. now rewrite H.
  - intros pre r post e H Hpre Hr. rewrite H. simpl.
    now rewrite (find_location_raise _ _ _ _ _ Hpre Hr).
  - intros pre r post e H Hpre Hn Hr. rewrite H. simpl.
    now rewrite (find_location_no_id _ _ _ _ _ Hpre Hn Hr).
Qed.

Lemma get_location_raises_witness :
  get_location remote_locations_down (VStr "ams01") [] =
    (fault, [getDataCenters]) /\
  get_location remote_nameless (VStr "ams01") [] =
    (Raise KeyError, [getDataCenters]).
Proof.
  split.
  - exact (proj1 (get_location_raises remote_locations_down "ams01" [])
             _ eq_refl).
  - exact (proj1 (proj2 (get_location_raises remote_nameless "ams01" []))
             [] (VDict [("id", VInt 3)])
             [VDict [("id", VInt 7); ("name", VStr "ams01")]] KeyError
             eq_refl (Forall_nil _) eq_refl).
Defined.

(** *** add_local_lb *)

(** X3: [add_local_lb] resolves the location and then places one order,
    in that order.  Over a returned list of datacenter records the order
    names the id of the first record with the given name; when every
    record carries another name the order is still placed, with location
    ['FIRST_AVAILABLE'].  The order is for one unit of package 0 at the
    given price item, and the method returns the answer of [placeOrder]. *)
Theorem add_local_lb_places_order
    (remote : oracle) (price_item_id : value) (name : string)
    (log : list call) (dcenters : list value) :
  let run := add_local_lb remote price_item_id (VStr name) log in
  let placed location :=
    (remote (log ++ [getDataCenters])
            (placeOrder (product_order price_item_id location)),
     log ++ [getDataCenters;
             placeOrder (product_order price_item_id location)]) in
  remote log getDataCenters = Ok (VList dcenters) ->
  (forall pre r post id,
      dcenters = pre ++ r :: post ->
      Forall (other_name name) pre ->
      getitem_key r "name" = Ok (VStr name) ->
      getitem_key r "id" = Ok id ->
      run = placed id) /\
  (Forall (other_name name) dcenters ->
   run = placed (VStr "FIRST_AVAILABLE")) /\
  (forall location,
      let order := product_order price_item_id location in
      getitem_key order "location" = Ok location /\
      getitem_key order "quantity" = Ok (VInt 1) /\
      getitem_key order "packageId" = Ok (VInt 0) /\
      getitem_key order "prices" = Ok (VList [VDict [("id", price_item_id)]])).
Proof.
  intros run placed H. unfold run, placed.
  rewrite add_local_lb_run, get_location_run, H. cbn [fst rbind py_iter].
  split; [|split].
  - intros pre r post id -> Hpre Hn Hid.
    now rewrite (find_location_first _ _ _ _ _ Hpre Hn Hid).
  - intros Hall. now rewrite (find_location_none _ _ Hall).
  - intros location. repeat split.
Qed.

Lemma add_local_lb_places_order_witness :
  add_local_lb remote_orders (VInt 1234) (VStr "tok02") [] =
    (Ok (VDict [("orderId", VInt 4711)]),
     [getDataCenters;
      placeOrder (product_order (VInt 1234) (VStr "FIRST_AVAILABLE"))]) /\
  add_local_lb remote_orders (VInt 1234) (VStr "ams01") [] =
    (Ok (VDict [("orderId", VInt 4711)]),
     [getDataCenters; placeOrder (product_order (VInt 1234) (VInt 7))]).
Proof.
  split.
  - refine (proj1 (proj2 (add_local_lb_places_order remote_orders (VInt 1234)
                            "tok02" [] _ eq_refl)) _).
    constructor; [exists (VStr "dal05"); split; reflexivity|].
    constructor; [exists (VStr "ams01"); split; reflexivity|].
    constructor.
  - refine (proj1 (add_local_lb_places_order remote_orders (VInt 1234)
                     "ams01" [] _ eq_refl)
              [VDict [("id", VInt 3); ("name", VStr "dal05")]]
              (VDict [("id", VInt 7); ("name", VStr "ams01")]) []
              (VInt 7) eq_refl _ eq_refl eq_refl).
    constructor; [exists (VStr "dal05"); split; reflexivity|].
    constructor.
Defined.

(** X4: when the location lookup of [add_local_lb] raises, because the
    remote lookup failed or a record could not be read, no order is
    placed: the lookup is the only remote call and its error is raised. *)
Theorem add_local_lb_no_order
    (remote : oracle) (price_item_id datacenter : value) (log : list call)
    (e : exn) :
  fst (get_location remote datacenter log) = Raise e ->
  add_local_lb remote price_item_id datacenter log =
    (Raise e, log ++ [getDataCenters]).
Proof.
  intros H. rewrite add_local_lb_run. now rewrite H.
Qed.

Lemma add_local_lb_no_order_witness :
  add_local_lb remote_nameless (VInt 1234) (VStr "ams01") [] =
    (Raise KeyError, [getDataCenters]).
Proof.
  exact (add_local_lb_no_order remote_nameless (VInt 1234) (VStr "ams01") []
           KeyError eq_refl).
Defined.

(** *** get_local_lb *)

(** X5: [get_local_lb] issues one [getObject] keyed by the given id and
    returns its answer.  The mask of the call is the mask of the caller
    when there is one and the default mask otherwise, and every other
    keyword of the caller is passed on with its value.  A caller keyword
    named [id] is refused with [TypeError] before anything is sent. *)
Theorem get_local_lb_mask
    (remote : oracle) (loadbal_id : value) (kwargs : list (string * value))
    (log : list call) :
  (dict_get "id" kwargs = None ->
   exists sent,
     get_local_lb remote loadbal_id kwargs log =
       (remote log (getObject_with loadbal_id sent),
        log ++ [getObject_with loadbal_id sent]) /\
     dict_get "mask" sent =
       Some (match dict_get "mask" kwargs with
             | Some mask => mask
             | None => default_lb_mask
             end) /\
     (forall k, k <> "mask" -> dict_get k sent = dict_get k kwargs)) /\
  (forall x, dict_get "id" kwargs = Some x ->
             get_local_lb remote loadbal_id kwargs log =
               (Raise TypeError, log)).
Proof.
  unfold get_local_lb. split.
  - intros Hid. destruct (dict_get "mask" kwargs) as [mask|] eqn:Hm.
    + exists kwargs. rewrite Hid. repeat split; auto.
    + exists (dict_set "mask" default_lb_mask kwargs).
      rewrite dict_get_set_other, Hid by reflexivity.
      repeat split.
      * apply dict_get_set_same.
      * intros k Hk. apply String.eqb_neq in Hk.
        now apply dict_get_set_other.
  - intros x Hid. destruct (dict_get "mask" kwargs) as [mask|] eqn:Hm.
    + now rewrite Hid.
    + rewrite dict_get_set_other, Hid by reflexivity. reflexivity.
Qed.

Lemma get_local_lb_mask_witness :
  exists sent,
    get_local_lb remote_lb (VInt 1) [("filter", VDict [])] [] =
      (Ok load_balancer, [getObject_with (VInt 1) sent]) /\
    dict_get "mask" sent = Some default_lb_mask /\
    dict_get "filter" sent = Some (VDict []).
Proof.
  destruct (proj1 (get_local_lb_mask remote_lb (VInt 1)
                     [("filter", VDict [])] []) eq_refl)
    as (sent & Hrun & Hmask & Hrest).
  exists sent. split; [exact Hrun|]. split; [exact Hmask|].
  rewrite (Hrest "filter"); [reflexivity | discriminate].
Defined.

(** *** The methods that fetch, update and submit *)



(** *** edit_service *)

(** X7: what [edit_service] submits for a service with the target id in
    the list it searches: each of enabled, port, weight (of the first
    group reference), healthCheckTypeId (of the first health check) and
    ipAddressId reads the given argument whenever that argument is not its
    sentinel. *)
Theorem edit_service_stores_fields
    (remote : oracle) (query_filter : value -> result value)
    (loadbal_id service_id ip_address_id port enabled hc_type weight : value)
    (log : list call) (operation virtual_servers payload : value)
    (i : nat) (service : value) :
  let fetch :=
    getVirtualServers_by_service operation loadbal_id in
  let stored q := get_path (first_services ++ Idx i :: q) payload in
  query_filter service_id = Ok operation ->
  remote log fetch = Ok virtual_servers ->
  snd (edit_service remote query_filter loadbal_id service_id ip_address_id
         port enabled hc_type weight log) =
    log ++ [fetch;
            editObject (VDict [("virtualServers", payload)]) loadbal_id] ->
  get_path (first_services ++ [Idx i]) virtual_servers = Ok service ->
  same_id service_id service ->
  (py_eq enabled (VInt (-1)) = false ->
   stored [Key "enabled"] = Ok enabled) /\
  (py_eq port (VInt (-1)) = false -> stored [Key "port"] = Ok port) /\
  (py_eq weight (VInt (-1)) = false ->
   stored [Key "groupReferences"; Idx 0; Key "weight"] = Ok weight) /\
  (py_eq hc_type (VInt (-1)) = false ->
   stored [Key "healthChecks"; Idx 0; Key "healthCheckTypeId"]
     = Ok hc_type) /\
  (py_eq ip_address_id (VInt 0) = false ->
   stored [Key "ipAddressId"] = Ok ip_address_id).
Proof.
  intros fetch stored Hop H Hs Hget (id & Hid & Hm).
  apply (edit_service_submitted _ _ _ _ _ _ _ _ _ _ _ _ _ Hop H) in Hs.
  destruct (loop_item _ _ _ _ _ _ (edit_service_node_str _ _ _ _ _ _)
              Hs Hget) as (s' & Hs' & Hb).
  assert (Hstored : forall q, stored q = get_path q s').
  { intros q. unfold stored.
    change (first_services ++ Idx i :: q)
      with ((first_services ++ [Idx i]) ++ q).
    now rewrite get_path_app, Hs'. }
  rewrite !Hstored.
  exact (edit_service_node_stores _ _ _ _ _ _ _ _ _ Hb Hid Hm).
Qed.

Lemma edit_service_stores_fields_witness :
  get_path [Idx 0; Key "serviceGroups"; Idx 0; Key "services"; Idx 0;
            Key "groupReferences"; Idx 0; Key "weight"]
           virtual_servers_edited = Ok (VInt 5) /\
  get_path [Idx 0; Key "serviceGroups"; Idx 0; Key "services"; Idx 0;
            Key "enabled"]
           virtual_servers_edited = Ok (VInt 0).
Proof.
  assert (Hsame : same_id (VInt 11) (service 11 80)).
  { exists (VInt 11). split; reflexivity. }
  destruct (edit_service_stores_fields remote_servers qf (VInt 1) (VInt 11)
              (VInt 600) (VInt 8443) (VInt 0) (VInt 3) (VInt 5) []
              (op (VInt 11)) virtual_servers virtual_servers_edited 0
              (service 11 80) eq_refl eq_refl eq_refl eq_refl Hsame)
    as (Hen & _ & Hw & _ & _).
  split; [exact (Hw eq_refl) | exact (Hen eq_refl)].
Defined.

(** X8: the loops keep the records they go through.  [edit_service]
    submits as many services in the list it searches as it fetched, each
    with the id it had; [add_service] and [edit_service_group] submit as
    many virtual servers as they fetched, each with the id it had. *)
Theorem loops_keep_records
    (remote : oracle) (query_filter : value -> result value)
    (loadbal_id : value) (log : list call) :
  (forall service_id ip_address_id port enabled hc_type weight
          operation virtual_servers payload services,
      let fetch :=
        getVirtualServers_by_service operation loadbal_id in
      query_filter service_id = Ok operation ->
      remote log fetch = Ok virtual_servers ->
      snd (edit_service remote query_filter loadbal_id service_id
             ip_address_id port enabled hc_type weight log) =
        log ++ [fetch;
                editObject (VDict [("virtualServers", payload)])
                           loadbal_id] ->
      get_path first_services virtual_servers = Ok (VList services) ->
      exists services',
        get_path first_services payload = Ok (VList services') /\
        Forall2 keeps_id services services') /\
  (forall service_group_id ip_address_id port enabled hc_type weight
          load_balancer payload servers,
      remote log (getObject loadbal_id) = Ok load_balancer ->
      snd (add_service remote loadbal_id service_group_id ip_address_id
             port enabled hc_type weight log) =
        log ++ [getObject loadbal_id; editObject payload loadbal_id] ->
      getitem_key load_balancer "virtualServers" = Ok (VList servers) ->
      exists servers',
        getitem_key payload "virtualServers" = Ok (VList servers') /\
        Forall2 keeps_id servers servers') /\
  (forall group_id allocation port routing_type routing_method
          load_balancer payload servers,
      remote log (getObject loadbal_id) = Ok load_balancer ->
      snd (edit_service_group remote loadbal_id group_id allocation port
             routing_type routing_method log) =
        log ++ [getObject loadbal_id; editObject payload loadbal_id] ->
      getitem_key load_balancer "virtualServers" = Ok (VList servers) ->
      exists servers',
        getitem_key payload "virtualServers" = Ok (VList servers') /\
        Forall2 keeps_id servers servers').
Proof.
  split; [|split].
  - intros sid ip port en hc w operation vs payload services fetch Hop H
      Hs Hl.
    apply (edit_service_submitted _ _ _ _ _ _ _ _ _ _ _ _ _ Hop H) in Hs.
    destruct (loop_list _ _ _ _ _ Hs Hl) as (l' & Hl' & Hall).
    exists l'. split; auto.
    eapply Forall2_impl; [|exact Hall].
    intros s s' Hb. unfold keeps_id.
    eapply edit_service_node_keeps_id. exact Hb.
  - intros gid ip port en hc w lbv payload servers H Hs Hl.
    apply (add_service_submitted _ _ _ _ _ _ _ _ _ _ _ H) in Hs.
    rewrite <- get_path_key in Hl.
    destruct (loop_list _ _ _ _ _ Hs Hl) as (l' & Hl' & Hall).
    exists l'. rewrite <- get_path_key. split; auto.
    eapply Forall2_impl; [|exact Hall].
    intros s s' Hb. unfold keeps_id. eapply add_service_node_keeps_id. exact Hb.
  - intros gid alloc port rt rm lbv payload servers H Hs Hl.
    apply (edit_service_group_submitted _ _ _ _ _ _ _ _ _ _ H) in Hs.
    rewrite <- get_path_key in Hl.
    destruct (loop_list _ _ _ _ _ Hs Hl) as (l' & Hl' & Hall).
    exists l'. rewrite <- get_path_key. split; auto.
    eapply Forall2_impl; [|exact Hall].
    intros s s' Hb. unfold keeps_id.
    eapply edit_service_group_node_keeps_id. exact Hb.
Qed.

Lemma loops_keep_records_witness :
  exists services',
    get_path first_services virtual_servers_edited = Ok (VList services') /\
    Forall2 keeps_id [service 11 80; service 12 80] services'.
Proof.
  exact (proj1 (loops_keep_records remote_servers qf (VInt 1) [])
           (VInt 11) (VInt 600) (VInt 8443) (VInt 0) (VInt 3) (VInt 5)
           (op (VInt 11)) virtual_servers virtual_servers_edited
           [service 11 80; service 12 80] eq_refl eq_refl eq_refl eq_refl).
Defined.

(** X9: [edit_service] is idempotent: run again with the same arguments
    on the tree it has submitted, it submits that tree unchanged. *)
Theorem edit_service_idempotent
    (remote : oracle) (query_filter : value -> result value)
    (loadbal_id service_id ip_address_id port enabled hc_type weight : value)
    (log : list call) (operation virtual_servers payload : value) :
  let fetch :=
    getVirtualServers_by_service operation loadbal_id in
  let submit := editObject (VDict [("virtualServers", payload)])
                           loadbal_id in
  query_filter service_id = Ok operation ->
  remote log fetch = Ok virtual_servers ->
  snd (edit_service remote query_filter loadbal_id service_id ip_address_id
         port enabled hc_type weight log) = log ++ [fetch; submit] ->
  forall (remote' : oracle) (log' : list call),
    remote' log' fetch = Ok payload ->
    edit_service remote' query_filter loadbal_id service_id ip_address_id
      port enabled hc_type weight log' =
    (remote' (log' ++ [fetch]) submit, log' ++ [fetch; submit]).
Proof.
  intros fetch submit Hop H Hs remote' log' H'.
  apply (edit_service_submitted _ _ _ _ _ _ _ _ _ _ _ _ _ Hop H) in Hs.
  destruct (modify_path_get _ _ (for_each_str _) _ _ Hs)
    as (c & c' & _ & Hfe & Hc').
  rewrite (edit_service_run _ _ _ _ _ _ _ _ _ _ _ _ Hop H').
  rewrite (modify_path_Ok_id _ _ _ _ Hc'); [reflexivity|].
  eapply for_each_idem; [|exact Hfe].
  intros x x'. apply edit_service_node_idem.
Qed.

Lemma edit_service_idempotent_witness :
  edit_service remote_servers_edited qf (VInt 1) (VInt 11) (VInt 600)
               (VInt 8443) (VInt 0) (VInt 3) (VInt 5) [] =
    (Ok (VBool true),
     [getVirtualServers_by_service (op (VInt 11)) (VInt 1);
      editObject (VDict [("virtualServers", virtual_servers_edited)])
                 (VInt 1)]).
Proof.
  exact (edit_service_idempotent remote_servers qf (VInt 1) (VInt 11)
           (VInt 600) (VInt 8443) (VInt 0) (VInt 3) (VInt 5) []
           (op (VInt 11)) virtual_servers virtual_servers_edited
           eq_refl eq_refl eq_refl remote_servers_edited [] eq_refl).
Defined.

(** X10: a weight cannot be given to a service that has no first group
    reference, nor a health check type to one that has no first health
    check.  When the first service with the target id in the searched
    list lacks it, [edit_service] raises locally, whatever else it was to
    store (for the health check: with the weight at its sentinel); the
    fetch is the only remote call and nothing is submitted. *)
Theorem edit_service_needs_nested_record
    (remote : oracle) (query_filter : value -> result value)
    (loadbal_id service_id : value) (log : list call)
    (operation virtual_servers : value) (pre : list value) (service : value)
    (post : list value) (e : exn) :
  let fetch :=
    getVirtualServers_by_service operation loadbal_id in
  query_filter service_id = Ok operation ->
  remote log fetch = Ok virtual_servers ->
  get_path first_services virtual_servers
    = Ok (VList (pre ++ service :: post)) ->
  Forall (other_id service_id) pre ->
  same_id service_id service ->
  (forall ip_address_id port enabled hc_type weight,
      py_eq weight (VInt (-1)) = false ->
      get_path [Key "groupReferences"; Idx 0] service = Raise e ->
      edit_service remote query_filter loadbal_id service_id ip_address_id
                   port enabled hc_type weight log =
        (Raise e, log ++ [fetch])) /\
  (forall ip_address_id port enabled hc_type,
      py_eq hc_type (VInt (-1)) = false ->
      get_path [Key "healthChecks"; Idx 0] service = Raise e ->
      edit_service remote query_filter loadbal_id service_id ip_address_id
                   port enabled hc_type (VInt (-1)) log =
        (Raise e, log ++ [fetch])).
Proof.
  intros fetch Hop H Hl Hpre Hsame. split.
  - intros ip port en hc w Hw Hg.
    rewrite (edit_service_run _ _ _ _ _ _ _ _ _ _ _ _ Hop H).
    rewrite (loop_raise _ _ _ _ _ _ e Hl); auto.
    + eapply Forall_impl; [|exact Hpre]. intros s (id & Hid & Hne).
      exists s. now apply edit_service_node_other with (id := id).
    + now apply edit_service_node_no_reference.
  - intros ip port en hc Hhc Hg.
    rewrite (edit_service_run _ _ _ _ _ _ _ _ _ _ _ _ Hop H).
    rewrite (loop_raise _ _ _ _ _ _ e Hl); auto.
    + eapply Forall_impl; [|exact Hpre]. intros s (id & Hid & Hne).
      exists s. now apply edit_service_node_other with (id := id).
    + now apply edit_service_node_no_health_check.
Qed.

Lemma edit_service_needs_nested_record_witness :
  edit_service remote_servers_plain qf (VInt 1) (VInt 12) (VInt 0)
               (VInt 8443) (VInt 0) (VInt (-1)) (VInt 5) [] =
    (Raise KeyError, [getVirtualServers_by_service (op (VInt 12)) (VInt 1)]).
Proof.
  assert (Hpre : Forall (other_id (VInt 12)) [service 11 80]).
  { constructor; [exists (VInt 11); split; reflexivity|]. constructor. }
  assert (Hsame : same_id (VInt 12) service_plain).
  { exists (VInt 12). split; reflexivity. }
  exact (proj1 (edit_service_needs_nested_record remote_servers_plain qf
                  (VInt 1) (VInt 12) [] (op (VInt 12))
                  virtual_servers_plain
                  [service 11 80] service_plain [] KeyError
                  eq_refl eq_refl eq_refl Hpre Hsame)
           (VInt 0) (VInt 8443) (VInt 0) (VInt (-1)) (VInt 5)
           eq_refl eq_refl).
Defined.

(** *** add_service and edit_service_group *)

(** X11: a virtual server with the target id, but without what the
    subscripts of the loop body ask of it, makes the call fail locally:
    the fetch is the only remote call and nothing is submitted.
    [edit_service_group] reads [serviceGroups][0] before it looks at its
    arguments, so it fails even when only allocation or port, or nothing
    at all, was to change; [add_service] fails when
    [serviceGroups][0]['services'] cannot be read. *)
Theorem target_without_first_group_fails
    (remote : oracle) (loadbal_id target : value) (log : list call)
    (load_balancer : value) (pre : list value) (server : value)
    (post : list value) (e : exn) :
  remote log (getObject loadbal_id) = Ok load_balancer ->
  getitem_key load_balancer "virtualServers"
    = Ok (VList (pre ++ server :: post)) ->
  Forall (other_id target) pre ->
  same_id target server ->
  (get_path group0 server = Raise e ->
   forall allocation port routing_type routing_method,
     edit_service_group remote loadbal_id target allocation port
                        routing_type routing_method log =
       (Raise e, log ++ [getObject loadbal_id])) /\
  (get_path group0_services server = Raise e ->
   forall ip_address_id port enabled hc_type weight,
     add_service remote loadbal_id target ip_address_id port enabled
                 hc_type weight log =
       (Raise e, log ++ [getObject loadbal_id])).
Proof.
  intros H Hl Hpre Hsame. rewrite <- get_path_key in Hl. split.
  - intros Hg alloc port rt rm.
    rewrite (edit_service_group_run _ _ _ _ _ _ _ _ _ H).
    rewrite (loop_raise _ _ _ _ _ _ e Hl); auto.
    + eapply Forall_impl; [|exact Hpre]. intros v Hv. exists v.
      now apply edit_service_group_node_other.
    + now apply edit_service_group_node_eager.
  - intros Hg ip port en hc w.
    rewrite (add_service_run _ _ _ _ _ _ _ _ _ _ H).
    rewrite (loop_raise _ _ _ _ _ _ e Hl); auto.
    + eapply Forall_impl; [|exact Hpre]. intros v Hv. exists v.
      now apply add_service_node_other.
    + now apply add_service_node_eager.
Qed.

Lemma target_without_first_group_fails_witness :
  edit_service_group remote_lb_bare (VInt 1) (VInt 51) (VInt (-1)) (VInt 0)
                     (VInt 0) (VInt 0) [] =
    (Raise IndexError, [getObject (VInt 1)]) /\
  add_service remote_lb_bare (VInt 1) (VInt 51) (VInt 600) (VInt 80)
              (VInt 1) (VInt 21) (VInt 1) [] =
    (Raise IndexError, [getObject (VInt 1)]).
Proof.
  assert (Hpre : Forall (other_id (VInt 51))
                   [virtual_server 50 [group 99 [service 11 80]]]).
  { constructor; [exists (VInt 50); split; reflexivity|]. constructor. }
  assert (Hsame : same_id (VInt 51) (virtual_server 51 [])).
  { exists (VInt 51). split; reflexivity. }
  destruct (target_without_first_group_fails remote_lb_bare (VInt 1)
              (VInt 51) [] load_balancer_bare
              [virtual_server 50 [group 99 [service 11 80]]]
              (virtual_server 51 []) [] IndexError eq_refl eq_refl
              Hpre Hsame)
    as (Hedit & Hadd).
  split.
  - exact (Hedit eq_refl (VInt (-1)) (VInt 0) (VInt 0) (VInt 0)).
  - exact (Hadd eq_refl (VInt 600) (VInt 80) (VInt 1) (VInt 21) (VInt 1)).
Defined.

(** X12: what [edit_service_group] submits for a virtual server with the
    target id: its allocation and port read the given arguments, and the
    routing type and method of its first service group read the given
    ids, whenever the argument is not its sentinel (-1 for the allocation,
    0 for the others). *)
Theorem edit_service_group_stores_fields
    (remote : oracle)
    (loadbal_id group_id allocation port routing_type routing_method : value)
    (log : list call) (load_balancer payload : value)
    (i : nat) (server : value) :
  let stored q := get_path (Key "virtualServers" :: Idx i :: q) payload in
  remote log (getObject loadbal_id) = Ok load_balancer ->
  snd (edit_service_group remote loadbal_id group_id allocation port
         routing_type routing_method log) =
    log ++ [getObject loadbal_id; editObject payload loadbal_id] ->
  get_path [Key "virtualServers"; Idx i] load_balancer = Ok server ->
  same_id group_id server ->
  (py_eq allocation (VInt (-1)) = false ->
   stored [Key "allocation"] = Ok allocation) /\
  (py_eq port (VInt 0) = false -> stored [Key "port"] = Ok port) /\
  (py_eq routing_type (VInt 0) = false ->
   stored (group0 ++ [Key "routingTypeId"]) = Ok routing_type) /\
  (py_eq routing_method (VInt 0) = false ->
   stored (group0 ++ [Key "routingMethodId"]) = Ok routing_method).
Proof.
  intros stored H Hs Hget Hsame.
  apply (edit_service_group_submitted _ _ _ _ _ _ _ _ _ _ H) in Hs.
  destruct (loop_item [Key "virtualServers"] _ _ _ _ _
              (edit_service_group_node_str _ _ _ _ _) Hs Hget)
    as (v' & Hv' & Hb).
  assert (Hstored : forall q, stored q = get_path q v').
  { intros q. unfold stored.
    change (Key "virtualServers" :: Idx i :: q)
      with (([Key "virtualServers"] ++ [Idx i]) ++ q).
    now rewrite get_path_app, Hv'. }
  rewrite !Hstored.
  exact (edit_service_group_node_stores _ _ _ _ _ _ _ Hb Hsame).
Qed.

Lemma edit_service_group_stores_fields_witness :
  get_path [Key "virtualServers"; Idx 1; Key "allocation"]
           load_balancer_regrouped = Ok (VInt 40) /\
  get_path [Key "virtualServers"; Idx 1; Key "serviceGroups"; Idx 0;
            Key "routingMethodId"]
           load_balancer_regrouped = Ok (VInt 20).
Proof.
  assert (Hsame : same_id (VInt 51)
                    (virtual_server 51 [group 97 []; group 96 []])).
  { exists (VInt 51). split; reflexivity. }
  destruct (edit_service_group_stores_fields remote_lb (VInt 1) (VInt 51)
              (VInt 40) (VInt 443) (VInt 3) (VInt 20) [] load_balancer
              load_balancer_regrouped 1
              (virtual_server 51 [group 97 []; group 96 []])
              eq_refl eq_refl eq_refl Hsame)
    as (Ha & _ & _ & Hrm).
  split; [exact (Ha eq_refl) | exact (Hrm eq_refl)].
Defined.

(** X13: when no virtual server of the fetched load balancer has the
    target id, [add_service] and [edit_service_group] store nothing and
    submit the load balancer exactly as fetched, whatever the other
    arguments are.  This covers the load balancer without any virtual
    server: unlike [edit_service], neither call subscripts the list. *)
Theorem no_target_server_submits_unchanged
    (remote : oracle) (loadbal_id target : value) (log : list call)
    (load_balancer : value) (servers : list value) :
  let unchanged :=
    (remote (log ++ [getObject loadbal_id])
            (editObject load_balancer loadbal_id),
     log ++ [getObject loadbal_id; editObject load_balancer loadbal_id]) in
  remote log (getObject loadbal_id) = Ok load_balancer ->
  getitem_key load_balancer "virtualServers" = Ok (VList servers) ->
  Forall (other_id target) servers ->
  (forall ip_address_id port enabled hc_type weight,
      add_service remote loadbal_id target ip_address_id port enabled
                  hc_type weight log = unchanged) /\
  (forall allocation port routing_type routing_method,
      edit_service_group remote loadbal_id target allocation port
                         routing_type routing_method log = unchanged).
Proof.
  intros unchanged H Hl Hall. rewrite <- get_path_key in Hl. split.
  - intros ip port en hc w.
    rewrite (add_service_run _ _ _ _ _ _ _ _ _ _ H).
    rewrite (loop_noop _ _ _ _ Hl); [reflexivity|].
    eapply Forall_impl; [|exact Hall].
    intros v Hv. now apply add_service_node_other.
  - intros alloc port rt rm.
    rewrite (edit_service_group_run _ _ _ _ _ _ _ _ _ H).
    rewrite (loop_noop _ _ _ _ Hl); [reflexivity|].
    eapply Forall_impl; [|exact Hall].
    intros v Hv. now apply edit_service_group_node_other.
Qed.

Lemma no_target_server_submits_unchanged_witness :
  add_service remote_lb (VInt 1) (VInt 77) (VInt 600) (VInt 80) (VInt 1)
              (VInt 21) (VInt 1) [] =
    (Ok (VBool true),
     [getObject (VInt 1); editObject load_balancer (VInt 1)]).
Proof.
  refine (proj1 (no_target_server_submits_unchanged remote_lb (VInt 1)
                   (VInt 77) [] load_balancer _ eq_refl eq_refl _)
            (VInt 600) (VInt 80) (VInt 1) (VInt 21) (VInt 1)).
  constructor; [exists (VInt 50); split; reflexivity|].
  constructor; [exists (VInt 51); split; reflexivity|].
  constructor.
Defined.

(** X14: the sentinels of [edit_service_group].  With every argument at
    its sentinel (allocation=-1, port=0, routing_type=0, routing_method=0)
    the call submits the load balancer exactly as fetched whenever it
    submits, and it submits whenever every virtual server has an id and
    those with the target id have a first service group.  And whatever the
    other arguments are, an argument at its sentinel leaves its field as
    fetched in every virtual server: allocation -1, port 0 and routing
    ids 0 cannot be stored through this call. *)
Theorem edit_service_group_sentinels_identity
    (remote : oracle) (loadbal_id group_id : value) (log : list call)
    (load_balancer : value) :
  let run :=
    edit_service_group remote loadbal_id group_id (VInt (-1)) (VInt 0)
                       (VInt 0) (VInt 0) log in
  remote log (getObject loadbal_id) = Ok load_balancer ->
  (forall payload,
      snd run = log ++ [getObject loadbal_id;
                        editObject payload loadbal_id] ->
      payload = load_balancer) /\
  (forall servers,
      getitem_key load_balancer "virtualServers" = Ok (VList servers) ->
      Forall (fun v => exists id,
                  getitem_key v "id" = Ok id /\
                  (py_eq id group_id = true ->
                   exists g, get_path group0 v = Ok g)) servers ->
      run = (remote (log ++ [getObject loadbal_id])
                    (editObject load_balancer loadbal_id),
             log ++ [getObject loadbal_id;
                     editObject load_balancer loadbal_id])) /\
  (forall allocation port routing_type routing_method payload i,
      snd (edit_service_group remote loadbal_id group_id allocation port
             routing_type routing_method log) =
        log ++ [getObject loadbal_id; editObject payload loadbal_id] ->
      let same q :=
        get_path (Key "virtualServers" :: Idx i :: q) payload =
        get_path (Key "virtualServers" :: Idx i :: q) load_balancer in
      (py_eq allocation (VInt (-1)) = true -> same [Key "allocation"]) /\
      (py_eq port (VInt 0) = true -> same [Key "port"]) /\
      (py_eq routing_type (VInt 0) = true ->
       same (group0 ++ [Key "routingTypeId"])) /\
      (py_eq routing_method (VInt 0) = true ->
       same (group0 ++ [Key "routingMethodId"]))).
Proof.
  intros run H. split; [|split].
  - intros payload Hs. unfold run in Hs.
    apply (edit_service_group_submitted _ _ _ _ _ _ _ _ _ _ H) in Hs.
    apply modify_path_id in Hs; auto.
    intros x x'. apply for_each_id.
    intros v v'. apply edit_service_group_node_sentinels.
  - intros servers Hl Hall. unfold run. rewrite <- get_path_key in Hl.
    rewrite (edit_service_group_run _ _ _ _ _ _ _ _ _ H).
    rewrite (loop_noop _ _ _ _ Hl); [reflexivity|].
    eapply Forall_impl; [|exact Hall].
    intros v (id & Hid & Hg).
    now apply edit_service_group_node_sentinels_Ok with (id := id).
  - intros alloc port rt rm payload i Hs same.
    apply (edit_service_group_submitted _ _ _ _ _ _ _ _ _ _ H) in Hs.
    assert (Hin : forall q,
               (forall v v', edit_service_group_node group_id alloc port rt
                               rm v = Ok v' ->
                             get_path q v' = get_path q v) ->
               same q).
    { intros q Hb. unfold same.
      apply (modify_path_inside [Key "virtualServers"] _ (Idx i :: q))
        with (v := load_balancer) (v' := payload) in Hs; auto.
      intros x x' Hfe. now apply (for_each_inside _ q x x' Hb). }
    repeat split; intros Heq; apply Hin; intros v v' Hn;
      (eapply edit_service_group_node_frame_sentinel; [exact Hn|..]);
      intros Hne;
      first [ reflexivity
            | unfold py_ne in Hne; rewrite Heq in Hne; discriminate ].
Qed.

Lemma edit_service_group_sentinels_identity_witness :
  edit_service_group remote_lb (VInt 1) (VInt 51) (VInt (-1)) (VInt 0)
                     (VInt 0) (VInt 0) [] =
    (Ok (VBool true),
     [getObject (VInt 1); editObject load_balancer (VInt 1)]) /\
  get_path [Key "virtualServers"; Idx 1; Key "port"] load_balancer_allocated
    = get_path [Key "virtualServers"; Idx 1; Key "port"] load_balancer.
Proof.
  split.
  - refine (proj1 (proj2 (edit_service_group_sentinels_identity remote_lb
                            (VInt 1) (VInt 51) [] load_balancer eq_refl))
              _ eq_refl _).
    constructor.
    { exists (VInt 50). split; [reflexivity|discriminate]. }
    constructor.
    { exists (VInt 51). split; [reflexivity|].
      intros _. exists (group 97 []). reflexivity. }
    constructor.
  - exact (proj1 (proj2 (proj2 (proj2 (edit_service_group_sentinels_identity
                                         remote_lb (VInt 1) (VInt 51) []
                                         load_balancer eq_refl))
                           (VInt 40) (VInt 0) (VInt 0) (VInt 0)
                           load_balancer_allocated 1 eq_refl))
             eq_refl).
Defined.

End MoreProperties.
